(** * OCR service: result normalisation, tile remapping and duplicate resolution

    A shallow embedding of the pure core of [apps/ocr-service/main.py]:
    the pydantic document model, [calculate_bbox_iou],
    [deduplicate_blocks_by_iou], the two result normalisers
    [yomitoku_result_to_page] and [yomitoku_ocr_to_page], the tile loops
    of the endpoints [/ocr/ocr-only/tiles] and [/ocr/layout/tiles], and the
    page loops of the whole-page endpoints.

    Conventions of the embedding.
    - A Python [float] is an exact rational ([Q]); NaN and infinities are
      outside the model, and so is binary64 rounding, except in
      [calculate_bbox_iou_f64], which is [calculate_bbox_iou] on binary64
      numbers.  Equality of computed numbers is [Qeq] ([==]).
    - A Python [int] is a [Z]; [len] is a [nat]; a [str] is a [string].
    - An exception is a value of [exn]; fallible code lives in the [Res]
      monad.  Every Python [/] is [py_truediv], which raises
      [ZeroDivisionError] on a zero divisor.
    - An engine result is an untyped value ([PyVal]); the engine itself, the
      rasteriser and the HTTP layer are parameters or left out.
    - The normalisers return values.  The tile loops assign to bbox fields
      in place, and there it matters which fields hold the same [BBox]
      object: a pydantic model keeps the object a constructor is given, so the
      remap is modelled on a store of BBox objects (section "Bbox objects").
    - [print] calls have no effect on the outcome and are dropped, except
      that an argument that can raise (a [len]) is still evaluated. *)

From Stdlib Require Import ZArith QArith Qround Qminmax Lqa Lia.
From Stdlib Require Import String Ascii List Bool Permutation Sorted.
From Stdlib Require Import PrimFloat.
From stdpp Require Import gmap.
Import ListNotations.

Local Open Scope Q_scope.

(** ** Exceptions and the error monad *)

Inductive exn : Type :=
| AttributeError
| TypeError
| KeyError
| IndexError
| ValueError
| ZeroDivisionError
| ValidationError
| HTTPException (status_code : Z).

Inductive Res (A : Type) : Type :=
| Ok (a : A)
| Raise (e : exn).
Arguments Ok {A} a.
Arguments Raise {A} e.

Definition bind {A B : Type} (c : Res A) (k : A -> Res B) : Res B :=
  match c with
  | Ok a => k a
  | Raise e => Raise e
  end.

Notation "x <- c ;; k" := (bind c (fun x => k))
  (at level 100, c at next level, right associativity).

Fixpoint mapM {A B : Type} (f : A -> Res B) (l : list A) : Res (list B) :=
  match l with
  | [] => Ok []
  | a :: l' => b <- f a ;; bs <- mapM f l' ;; Ok (b :: bs)
  end.

(** ** Numbers *)

Definition Qltb (a b : Q) : bool := negb (Qle_bool b a).

(** [max(a, b)] and [min(a, b)] of Python: the second argument is taken only
    when it is strictly greater (smaller). *)
Definition py_max (a b : Q) : Q := if Qltb a b then b else a.
Definition py_min (a b : Q) : Q := if Qltb b a then b else a.

(** [a / b] *)
Definition py_truediv (a b : Q) : Res Q :=
  if Qeq_bool b 0 then Raise ZeroDivisionError else Ok (a / b).

(** [int(q)]: truncation toward zero. *)
Definition py_int (q : Q) : Z := Z.quot (Qnum q) (Zpos (Qden q)).

(** ** The document model (pydantic classes) *)

Module BBox.
Record t : Type := mk { x : Q; y : Q; w : Q; h : Q }.
End BBox.

Module Token.
Record t : Type := mk { text : string; bbox : BBox.t; confidence : option Q }.
End Token.

Module Line.
Record t : Type := mk { text : string; bbox : BBox.t; tokens : list Token.t }.
End Line.

Module Block.
Record t : Type :=
  mk { text : string; bbox : BBox.t; blockType : string; lines : list Line.t }.
End Block.

(** ** Geometry: [calculate_bbox_iou] *)

Definition calculate_bbox_iou (bbox1 bbox2 : BBox.t) : Res Q :=
  let x1_inter := py_max (BBox.x bbox1) (BBox.x bbox2) in
  let y1_inter := py_max (BBox.y bbox1) (BBox.y bbox2) in
  let x2_inter := py_min (BBox.x bbox1 + BBox.w bbox1) (BBox.x bbox2 + BBox.w bbox2) in
  let y2_inter := py_min (BBox.y bbox1 + BBox.h bbox1) (BBox.y bbox2 + BBox.h bbox2) in
  if Qle_bool x2_inter x1_inter || Qle_bool y2_inter y1_inter then Ok 0
  else
    let intersection := (x2_inter - x1_inter) * (y2_inter - y1_inter) in
    let area1 := BBox.w bbox1 * BBox.h bbox1 in
    let area2 := BBox.w bbox2 * BBox.h bbox2 in
    let union := area1 + area2 - intersection in
    if Qltb 0 union then py_truediv intersection union else Ok 0.

(** The quantities the specification of the IoU speaks about, written with
    the library's [Qmax] and [Qmin]. *)
Definition inter_width (a b : BBox.t) : Q :=
  Qmin (BBox.x a + BBox.w a) (BBox.x b + BBox.w b) - Qmax (BBox.x a) (BBox.x b).
Definition inter_height (a b : BBox.t) : Q :=
  Qmin (BBox.y a + BBox.h a) (BBox.y b + BBox.h b) - Qmax (BBox.y a) (BBox.y b).
Definition area (a : BBox.t) : Q := BBox.w a * BBox.h a.
Definition intersection_area (a b : BBox.t) : Q := inter_width a b * inter_height a b.
Definition union_area (a b : BBox.t) : Q := area a + area b - intersection_area a b.

(** The number [calculate_bbox_iou] returns ([calculate_bbox_iou_returns]
    shows that it always returns one). *)
Definition iou_of (a b : BBox.t) : Q :=
  match calculate_bbox_iou a b with
  | Ok v => v
  | Raise _ => 0
  end.

(** *** [calculate_bbox_iou] on binary64 numbers

    The same function with the arithmetic of the interpreter: a Python
    [float] is an IEEE 754 binary64 number, every operation rounds to the
    nearest one.  It shows what rounding does to the result. *)

Module BBox64.
Record t : Type := mk { x : float; y : float; w : float; h : float }.
End BBox64.

Definition max64 (a b : float) : float := if PrimFloat.ltb a b then b else a.
Definition min64 (a b : float) : float := if PrimFloat.ltb b a then b else a.

Definition truediv64 (a b : float) : Res float :=
  if PrimFloat.eqb b 0%float then Raise ZeroDivisionError else Ok (PrimFloat.div a b).

Definition calculate_bbox_iou_f64 (bbox1 bbox2 : BBox64.t) : Res float :=
  let x1_inter := max64 (BBox64.x bbox1) (BBox64.x bbox2) in
  let y1_inter := max64 (BBox64.y bbox1) (BBox64.y bbox2) in
  let x2_inter :=
    min64 (PrimFloat.add (BBox64.x bbox1) (BBox64.w bbox1))
          (PrimFloat.add (BBox64.x bbox2) (BBox64.w bbox2)) in
  let y2_inter :=
    min64 (PrimFloat.add (BBox64.y bbox1) (BBox64.h bbox1))
          (PrimFloat.add (BBox64.y bbox2) (BBox64.h bbox2)) in
  if PrimFloat.leb x2_inter x1_inter || PrimFloat.leb y2_inter y1_inter then Ok 0%float
  else
    let intersection :=
      PrimFloat.mul (PrimFloat.sub x2_inter x1_inter) (PrimFloat.sub y2_inter y1_inter) in
    let area1 := PrimFloat.mul (BBox64.w bbox1) (BBox64.h bbox1) in
    let area2 := PrimFloat.mul (BBox64.w bbox2) (BBox64.h bbox2) in
    let union := PrimFloat.sub (PrimFloat.add area1 area2) intersection in
    if PrimFloat.ltb 0%float union then truediv64 intersection union else Ok 0%float.

(** The box [BBox(x=0.1, y=0.0, w=0.2, h=1.0)]; the literals are the doubles
    Python reads [0.1] and [0.2] as. *)
Definition strip_box : BBox64.t :=
  BBox64.mk 0x1.999999999999ap-4%float 0%float 0x1.999999999999ap-3%float 1%float.

(** ** Duplicate resolver: [deduplicate_blocks_by_iou] *)

(** [sum(t.confidence or 0.0 for t in line.tokens)], and the generator over
    all lines of a block. *)
Definition confidence_or_zero (t : Token.t) : Q :=
  match Token.confidence t with
  | Some c => c
  | None => 0
  end.

Definition block_tokens (b : Block.t) : list Token.t :=
  flat_map Line.tokens (Block.lines b).

Definition sum_confidence (b : Block.t) : Q :=
  fold_left (fun acc t => acc + confidence_or_zero t) (block_tokens b) 0.

(** [sum(len(line.tokens) for line in b.lines)] *)
Definition token_count (b : Block.t) : nat :=
  fold_left (fun acc line => (acc + length (Line.tokens line))%nat) (Block.lines b) 0%nat.

(** The sort key of the [lambda]: a pair (mean confidence, text length). *)
Definition sort_key (b : Block.t) : Res (Q * nat) :=
  mean <- py_truediv (sum_confidence b) (inject_Z (Z.of_nat (Nat.max 1 (token_count b)))) ;;
  Ok (mean, String.length (Block.text b)).

(** Tuple comparison [k1 < k2]: the first components decide unless they are
    equal, then the second ones do. *)
Definition key_ltb (k1 k2 : Q * nat) : bool :=
  Qltb (fst k1) (fst k2) || (Qeq_bool (fst k1) (fst k2) && (snd k1 <? snd k2)%nat).

(** [sorted(..., key=..., reverse=True)] on a list decorated with its keys.
    The sort of Python is stable, also with [reverse=True]: elements with
    equal keys keep their input order.  A stable sort has one outcome, which
    this insertion sort computes. *)
Fixpoint insert_desc {A : Type} (e : (Q * nat) * A) (l : list ((Q * nat) * A))
  : list ((Q * nat) * A) :=
  match l with
  | [] => [e]
  | e' :: l' =>
      if key_ltb (fst e) (fst e') then e' :: insert_desc e l' else e :: e' :: l'
  end.

Fixpoint sort_desc {A : Type} (l : list ((Q * nat) * A)) : list ((Q * nat) * A) :=
  match l with
  | [] => []
  | e :: l' => insert_desc e (sort_desc l')
  end.

Definition decorate (b : Block.t) : Res ((Q * nat) * Block.t) :=
  k <- sort_key b ;; Ok (k, b).

Definition sorted_reverse (blocks : list Block.t) : Res (list Block.t) :=
  keyed <- mapM decorate blocks ;;
  Ok (map snd (sort_desc keyed)).

(** The inner [for kept in kept_blocks] loop with its [break]. *)
Fixpoint is_duplicate (block : Block.t) (kept_blocks : list Block.t) (iou_threshold : Q)
  : Res bool :=
  match kept_blocks with
  | [] => Ok false
  | kept :: rest =>
      iou <- calculate_bbox_iou (Block.bbox block) (Block.bbox kept) ;;
      if Qltb iou_threshold iou then Ok true
      else is_duplicate block rest iou_threshold
  end.

(** The outer [for block in sorted_blocks] loop; [kept_blocks] is the list
    built so far, in append order. *)
Fixpoint keep_loop (sorted_blocks kept_blocks : list Block.t) (iou_threshold : Q)
  : Res (list Block.t) :=
  match sorted_blocks with
  | [] => Ok kept_blocks
  | block :: rest =>
      dup <- is_duplicate block kept_blocks iou_threshold ;;
      if dup then keep_loop rest kept_blocks iou_threshold
      else keep_loop rest (kept_blocks ++ [block]) iou_threshold
  end.

Definition deduplicate_blocks_by_iou (blocks : list Block.t) (iou_threshold : Q)
  : Res (list Block.t) :=
  if (length blocks <=? 1)%nat then Ok blocks
  else
    sorted_blocks <- sorted_reverse blocks ;;
    keep_loop sorted_blocks [] iou_threshold.

(** *** The resolver in the words of its specification *)

(** Mean token confidence: the confidences of all tokens of all lines, a
    missing one counting 0, over the number of tokens, at least 1. *)
Definition mean_confidence (b : Block.t) : Q :=
  fold_right (fun t acc => confidence_or_zero t + acc) 0 (block_tokens b)
  / inject_Z (Z.of_nat (Nat.max 1 (length (block_tokens b)))).

Definition score (b : Block.t) : Q * nat :=
  (mean_confidence b, String.length (Block.text b)).

(** Lexicographic [k1 >= k2] on score pairs. *)
Definition key_ge (k1 k2 : Q * nat) : Prop :=
  fst k2 < fst k1 \/ (fst k1 == fst k2 /\ (snd k2 <= snd k1)%nat).

Definition descending (l : list Block.t) : Prop :=
  StronglySorted (fun b1 b2 => key_ge (score b1) (score b2)) l.

(** [walk t kept l out]: walking [l] from the kept-list [kept] ends with the
    kept-list [out].  A block is appended when its IoU with every kept block
    is at most [t], and dropped when some IoU exceeds [t]. *)
Inductive walk (t : Q) : list Block.t -> list Block.t -> list Block.t -> Prop :=
| walk_done kept : walk t kept [] kept
| walk_keep kept b l out :
    Forall (fun k => iou_of (Block.bbox b) (Block.bbox k) <= t) kept ->
    walk t (kept ++ [b]) l out ->
    walk t kept (b :: l) out
| walk_drop kept b l out :
    Exists (fun k => t < iou_of (Block.bbox b) (Block.bbox k)) kept ->
    walk t kept l out ->
    walk t kept (b :: l) out.

(** *** The values the loops compute *)

Definition score_of (b : Block.t) : Q * nat :=
  (sum_confidence b / inject_Z (Z.of_nat (Nat.max 1 (token_count b))),
   String.length (Block.text b)).

Definition exceeds (t : Q) (block kept : Block.t) : bool :=
  Qltb t (iou_of (Block.bbox block) (Block.bbox kept)).

Fixpoint kept_after (t : Q) (sorted_blocks kept_blocks : list Block.t) : list Block.t :=
  match sorted_blocks with
  | [] => kept_blocks
  | block :: rest =>
      if existsb (exceeds t block) kept_blocks then kept_after t rest kept_blocks
      else kept_after t rest (kept_blocks ++ [block])
  end.

Definition sorted_of (blocks : list Block.t) : list Block.t :=
  map snd (sort_desc (map (fun b => (score_of b, b)) blocks)).

(** No block of [l] exceeds the threshold against a block before it. *)
Definition separated (t : Q) (l : list Block.t) : Prop :=
  forall (n : nat) (b : Block.t),
    l !! n = Some b -> existsb (exceeds t b) (take n l) = false.

(** *** Sample pools *)

Definition unit_box : BBox.t := BBox.mk 0 0 1 1.

(** One recognised word as the OCR normaliser builds it: a block with one
    line with one token. *)
Definition word_block (text : string) (box : BBox.t) (rec_score : option Q) : Block.t :=
  Block.mk text box "ocr_word" [Line.mk text box [Token.mk text box rec_score]].

Definition word_A : Block.t := word_block "A" unit_box (Some (9 # 10)).
Definition word_AA : Block.t := word_block "AA" unit_box (Some (6 # 10)).

(** ** The rest of the document model *)

(** A cell of [Table.cells] is a [dict] with exactly these six keys; the
    first five hold whatever the engine supplied. *)
Module Cell.
Record t (V : Type) : Type :=
  mk { rowIndex : V; colIndex : V; rowSpan : V; colSpan : V; text : V; bbox : BBox.t }.
Arguments mk {V}.
Arguments rowIndex {V}.
Arguments colIndex {V}.
Arguments rowSpan {V}.
Arguments colSpan {V}.
Arguments text {V}.
Arguments bbox {V}.
End Cell.

(** ** Engine results: untyped Python values *)

Set Warnings "-register-all".

(** A [dict] has [str] keys and keeps insertion order.  [PModel] is a
    pydantic object, given by the dict its [model_dump()] (or [dict()])
    returns.  A [str] has one character per code point. *)
Inductive PyVal : Type :=
| PNone
| PBool (b : bool)
| PInt (z : Z)
| PFloat (q : Q)
| PStr (s : string)
| PList (l : list PyVal)
| PTuple (l : list PyVal)
| PDict (d : list (string * PyVal))
| PModel (d : list (string * PyVal)).

Module Table.
Record t : Type :=
  mk { bbox : BBox.t; rows : Z; cols : Z; cells : list (Cell.t PyVal) }.
End Table.

Module Figure.
Record t : Type := mk { bbox : BBox.t; figureType : string }.
End Figure.

Module Page.
Record t : Type :=
  mk { pageIndex : Z; dpi : Z; widthPx : Z; heightPx : Z;
       blocks : list Block.t;
       tables : option (list Table.t);
       figures : option (list Figure.t);
       readingOrder : option (list Z) }.
End Page.

Fixpoint dict_lookup (d : list (string * PyVal)) (key : string) : option PyVal :=
  match d with
  | [] => None
  | (k, v) :: d' => if String.eqb k key then Some v else dict_lookup d' key
  end.

(** [key in d] *)
Definition dict_has (d : list (string * PyVal)) (key : string) : bool :=
  match dict_lookup d key with
  | Some _ => true
  | None => false
  end.

(** [v.get(key, default)]: only a dict has [get]. *)
Definition py_get (v : PyVal) (key : string) (default : PyVal) : Res PyVal :=
  match v with
  | PDict d =>
      match dict_lookup d key with
      | Some x => Ok x
      | None => Ok default
      end
  | _ => Raise AttributeError
  end.

(** Truth value of [v], and [v or d]. *)
Definition py_truthy (v : PyVal) : bool :=
  match v with
  | PNone => false
  | PBool b => b
  | PInt z => negb (z =? 0)%Z
  | PFloat q => negb (Qeq_bool q 0)
  | PStr s => negb (String.eqb s "")
  | PList l | PTuple l => negb (Nat.eqb (length l) 0)
  | PDict d => negb (Nat.eqb (length d) 0)
  | PModel _ => true
  end.

Definition py_or (v d : PyVal) : PyVal := if py_truthy v then v else d.

(** [len(v)] *)
Definition py_len (v : PyVal) : Res nat :=
  match v with
  | PStr s => Ok (String.length s)
  | PList l | PTuple l => Ok (length l)
  | PDict d => Ok (length d)
  | _ => Raise TypeError
  end.

Definition chars (s : string) : list PyVal :=
  map (fun c => PStr (String c EmptyString)) (list_ascii_of_string s).

(** The items a [for] loop or a comprehension draws from [v]. *)
Definition py_iter (v : PyVal) : Res (list PyVal) :=
  match v with
  | PStr s => Ok (chars s)
  | PList l | PTuple l => Ok l
  | PDict d => Ok (map (fun kv => PStr (fst kv)) d)
  | _ => Raise TypeError
  end.

(** [v[i]] for a literal index [i >= 0].  A dict has no integer key here. *)
Definition py_index (v : PyVal) (i : nat) : Res PyVal :=
  match v with
  | PStr s =>
      match nth_error (chars s) i with
      | Some c => Ok c
      | None => Raise IndexError
      end
  | PList l | PTuple l =>
      match nth_error l i with
      | Some x => Ok x
      | None => Raise IndexError
      end
  | PDict _ => Raise KeyError
  | _ => Raise TypeError
  end.

(** The integer an [int] or a [bool] stands for, and the number a value
    stands for in arithmetic. *)
Definition py_integer (v : PyVal) : option Z :=
  match v with
  | PBool b => Some (if b then 1 else 0)%Z
  | PInt z => Some z
  | _ => None
  end.

Definition py_number (v : PyVal) : option Q :=
  match v with
  | PFloat q => Some q
  | _ => option_map inject_Z (py_integer v)
  end.

(** [a - b] on numbers: an [int] unless one operand is a [float]. *)
Definition py_sub (a b : PyVal) : Res PyVal :=
  match py_integer a, py_integer b with
  | Some za, Some zb => Ok (PInt (za - zb))
  | _, _ =>
      match py_number a, py_number b with
      | Some qa, Some qb => Ok (PFloat (qa - qb))
      | _, _ => Raise TypeError
      end
  end.

(** [float(v)].  Parsing a numeric [str] is not modelled: a [str] raises. *)
Definition py_float (v : PyVal) : Res Q :=
  match v with
  | PStr _ => Raise ValueError
  | _ =>
      match py_number v with
      | Some q => Ok q
      | None => Raise TypeError
      end
  end.

(** [a < b]: on two numbers or on two strings.  Python also orders
    sequences; engine coordinates are numbers, other operands raise here. *)
Definition py_lt (a b : PyVal) : Res bool :=
  match py_number a, py_number b with
  | Some qa, Some qb => Ok (Qltb qa qb)
  | _, _ =>
      match a, b with
      | PStr sa, PStr sb => Ok (String.ltb sa sb)
      | _, _ => Raise TypeError
      end
  end.

(** [min(xs)] and [max(xs)] of a list: the first smallest (largest) item. *)
Fixpoint min_from (best : PyVal) (xs : list PyVal) : Res PyVal :=
  match xs with
  | [] => Ok best
  | v :: xs' =>
      lt <- py_lt v best ;;
      min_from (if lt then v else best) xs'
  end.

Fixpoint max_from (best : PyVal) (xs : list PyVal) : Res PyVal :=
  match xs with
  | [] => Ok best
  | v :: xs' =>
      gt <- py_lt best v ;;
      max_from (if gt then v else best) xs'
  end.

Definition py_min_list (xs : list PyVal) : Res PyVal :=
  match xs with
  | [] => Raise ValueError
  | v :: xs' => min_from v xs'
  end.

Definition py_max_list (xs : list PyVal) : Res PyVal :=
  match xs with
  | [] => Raise ValueError
  | v :: xs' => max_from v xs'
  end.

(** *** Field validation of the pydantic classes

    A field accepts the values of its declared type ([float] also an [int],
    [Optional] also [None]); anything else is a [ValidationError].  The
    coercions of pydantic's lax mode (numeric strings and the like) are not
    modelled. *)
Definition validate_str (v : PyVal) : Res string :=
  match v with
  | PStr s => Ok s
  | _ => Raise ValidationError
  end.

Definition validate_int (v : PyVal) : Res Z :=
  match v with
  | PInt z => Ok z
  | _ => Raise ValidationError
  end.

Definition validate_optional_float (v : PyVal) : Res (option Q) :=
  match v with
  | PNone => Ok None
  | PInt z => Ok (Some (inject_Z z))
  | PFloat q => Ok (Some q)
  | _ => Raise ValidationError
  end.

Definition validate_optional_int_list (v : PyVal) : Res (option (list Z)) :=
  match v with
  | PNone => Ok None
  | PList l => ns <- mapM validate_int l ;; Ok (Some ns)
  | _ => Raise ValidationError
  end.

(** ** Result normalisers *)

Definition zero_box : PyVal := PList [PInt 0; PInt 0; PInt 0; PInt 0].

Definition zero_points : PyVal :=
  PList [PList [PInt 0; PInt 0]; PList [PInt 0; PInt 0];
         PList [PInt 0; PInt 0]; PList [PInt 0; PInt 0]].

(** The conversion of a two-corner box the source spells out for paragraphs,
    tables, cells and figures:
    [x=float(b[0]), y=float(b[1]), w=float(b[2] - b[0]), h=float(b[3] - b[1])]. *)
Definition box_to_bbox (bbox_data : PyVal) : Res BBox.t :=
  b0 <- py_index bbox_data 0 ;; x <- py_float b0 ;;
  b1 <- py_index bbox_data 1 ;; y <- py_float b1 ;;
  b2 <- py_index bbox_data 2 ;; b0' <- py_index bbox_data 0 ;;
  dw <- py_sub b2 b0' ;; w <- py_float dw ;;
  b3 <- py_index bbox_data 3 ;; b1' <- py_index bbox_data 1 ;;
  dh <- py_sub b3 b1' ;; h <- py_float dh ;;
  Ok (BBox.mk x y w h).

(** [xs = [p[0] for p in points]; ys = [p[1] for p in points]] and the
    corners [(x1, y1, x2, y2)] of the enclosing rectangle. *)
Definition points_extent (points : PyVal) : Res (PyVal * PyVal * PyVal * PyVal) :=
  ps <- py_iter points ;;
  xs <- mapM (fun p => py_index p 0) ps ;;
  ys <- mapM (fun p => py_index p 1) ps ;;
  x1 <- py_min_list xs ;; x2 <- py_max_list xs ;;
  y1 <- py_min_list ys ;; y2 <- py_max_list ys ;;
  Ok (x1, y1, x2, y2).

(** [result.model_dump()] / [result.dict()] when the object has one. *)
Definition dump_model (result : PyVal) : PyVal :=
  match result with
  | PModel d => PDict d
  | _ => result
  end.

(** [isinstance(result, dict) and key in result] *)
Definition result_has (result : PyVal) (key : string) : bool :=
  match result with
  | PDict d => dict_has d key
  | _ => false
  end.

(** [result[key]] *)
Definition result_item (result : PyVal) (key : string) : Res PyVal :=
  match result with
  | PDict d =>
      match dict_lookup d key with
      | Some v => Ok v
      | None => Raise KeyError
      end
  | _ => Raise TypeError
  end.

(** *** [yomitoku_ocr_to_page] *)

Definition ocr_words (result : PyVal) : Res PyVal :=
  match result with
  | PDict d =>
      if dict_has d "words" then
        words <- py_get result "words" (PList []) ;;
        _ <- py_len words ;;
        Ok words
      else Ok (PList [])
  | PTuple (first :: _) =>
      match first with
      | PDict _ => py_get first "words" (PList [])
      | _ => Ok (PList [])
      end
  | _ => Ok (PList [])
  end.

(** The body of [for word in words]. *)
Definition word_to_block (word : PyVal) : Res Block.t :=
  points <- py_get word "points" zero_points ;;
  ext <- points_extent points ;;
  let '(x1, y1, x2, y2) := ext in
  x <- py_float x1 ;;
  y <- py_float y1 ;;
  dw <- py_sub x2 x1 ;; w <- py_float dw ;;
  dh <- py_sub y2 y1 ;; h <- py_float dh ;;
  let bbox := BBox.mk x y w h in
  content <- py_get word "content" (PStr "") ;;
  rec_score <- py_get word "rec_score" PNone ;;
  text <- validate_str (py_or content (PStr "")) ;;
  confidence <- validate_optional_float rec_score ;;
  let token := Token.mk text bbox confidence in
  let line := Line.mk (Token.text token) bbox [token] in
  Ok (Block.mk (Token.text token) bbox "ocr_word" [line]).

Definition yomitoku_ocr_to_page (result : PyVal) (page_index dpi width height : Z)
  : Res Page.t :=
  let result := dump_model result in
  words <- ocr_words result ;;
  items <- py_iter words ;;
  blocks <- mapM word_to_block items ;;
  Ok (Page.mk page_index dpi width height blocks None None None).

(** *** [yomitoku_result_to_page] *)

(** The body of the loop over [result["words"]]; the entry is appended to
    [all_words], which nothing reads afterwards. *)
Definition word_entry (word_data : PyVal) : Res PyVal :=
  points <- py_get word_data "points" zero_points ;;
  ext <- points_extent points ;;
  let '(x1, y1, x2, y2) := ext in
  text <- py_get word_data "content" (PStr "") ;;
  confidence <- py_get word_data "rec_score" (PFloat 1) ;;
  direction <- py_get word_data "direction" (PStr "horizontal") ;;
  Ok (PDict [("text", text); ("bbox", PList [x1; y1; x2; y2]);
             ("confidence", confidence); ("direction", direction)]%string).

Section Normaliser.
(** [str(v)] as an f-string renders it. *)
Variable format_value : PyVal -> string.

Definition paragraph_to_block (paragraph : PyVal) : Res Block.t :=
  bbox_data <- py_get paragraph "box" zero_box ;;
  bbox <- box_to_bbox bbox_data ;;
  contents <- py_get paragraph "contents" (PStr "") ;;
  let text_content := py_or contents (PStr "") in
  role0 <- py_get paragraph "role" PNone ;;
  let role := py_or role0 (PStr "text") in
  direction0 <- py_get paragraph "direction" PNone ;;
  let direction := py_or direction0 (PStr "horizontal") in
  let block_type :=
    if py_truthy role then role
    else PStr ("paragraph_" ++ format_value direction) in
  line_text <- validate_str text_content ;;
  let line := Line.mk line_text bbox [] in
  text <- validate_str text_content ;;
  blockType <- validate_str block_type ;;
  Ok (Block.mk text bbox blockType [line]).

Definition cell_to_cell (cell_data : PyVal) : Res (Cell.t PyVal) :=
  cell_bbox_data <- py_get cell_data "box" zero_box ;;
  row <- py_get cell_data "row" (PInt 0) ;;
  col <- py_get cell_data "col" (PInt 0) ;;
  row_span <- py_get cell_data "row_span" (PInt 1) ;;
  col_span <- py_get cell_data "col_span" (PInt 1) ;;
  contents <- py_get cell_data "contents" (PStr "") ;;
  bbox <- box_to_bbox cell_bbox_data ;;
  Ok (Cell.mk row col row_span col_span (py_or contents (PStr "")) bbox).

Definition table_to_table (table_data : PyVal) : Res Table.t :=
  bbox_data <- py_get table_data "box" zero_box ;;
  bbox <- box_to_bbox bbox_data ;;
  rows_count <- py_get table_data "n_row" (PInt 0) ;;
  cols_count <- py_get table_data "n_col" (PInt 0) ;;
  cells_data <- py_get table_data "cells" (PList []) ;;
  items <- py_iter cells_data ;;
  cells <- mapM cell_to_cell items ;;
  rows <- validate_int rows_count ;;
  cols <- validate_int cols_count ;;
  Ok (Table.mk bbox rows cols cells).

Definition figure_to_figure (figure_data : PyVal) : Res Figure.t :=
  bbox_data <- py_get figure_data "box" zero_box ;;
  bbox <- box_to_bbox bbox_data ;;
  direction <- py_get figure_data "direction" PNone ;;
  let figure_type :=
    if py_truthy direction then ("figure_" ++ format_value direction)%string
    else "figure"%string in
  Ok (Figure.mk bbox figure_type).

(** [print(... list(result['paragraphs'][0].keys()) ...)] *)
Definition sample_keys (paragraphs : PyVal) : Res unit :=
  first <- py_index paragraphs 0 ;;
  match first with
  | PDict _ => Ok tt
  | _ => Raise AttributeError
  end.

(** [x if x else None] on a list. *)
Definition non_empty {A : Type} (l : list A) : option (list A) :=
  match l with
  | [] => None
  | _ => Some l
  end.

Definition yomitoku_result_to_page
    (result : PyVal) (page_index dpi width height : Z) : Res Page.t :=
  let result :=
    match result with
    | PTuple (first :: _) => first
    | _ => result
    end in
  let result := dump_model result in
  all_words <-
    (if result_has result "words" then
       words <- result_item result "words" ;;
       _ <- py_len words ;;
       items <- py_iter words ;;
       mapM word_entry items
     else Ok []) ;;
  blocks <-
    (if result_has result "paragraphs" then
       paragraphs <- result_item result "paragraphs" ;;
       n <- py_len paragraphs ;;
       _ <- (if (0 <? n)%nat then sample_keys paragraphs else Ok tt) ;;
       items <- py_iter paragraphs ;;
       mapM paragraph_to_block items
     else Ok []) ;;
  tables <-
    (if result_has result "tables" then
       tables_data <- result_item result "tables" ;;
       _ <- py_len tables_data ;;
       items <- py_iter tables_data ;;
       mapM table_to_table items
     else Ok []) ;;
  figures <-
    (if result_has result "figures" then
       figures_data <- result_item result "figures" ;;
       _ <- py_len figures_data ;;
       items <- py_iter figures_data ;;
       mapM figure_to_figure items
     else Ok []) ;;
  reading_order <- py_get result "reading_order" PNone ;;
  readingOrder <- validate_optional_int_list reading_order ;;
  Ok (Page.mk page_index dpi width height blocks
        (non_empty tables) (non_empty figures) readingOrder).
End Normaliser.

(** ** Tile endpoints *)

(** A tile specification as the endpoints read it from the decoded JSON:
    [spec["pageIndex"]] and the four numbers of [spec["bboxNormalized"]]. *)
Module TileSpec.
Record t : Type :=
  mk { pageIndex : Z; bboxNormalized : BBox.t; overlap : option Q }.
End TileSpec.

(** A page raster: its pixel size and a name for its pixel buffer. *)
Module Image.
Record t : Type := mk { width : Z; height : Z; pixels : nat }.
End Image.

(** [img_array[y0:y1, x0:x1]]: the slice handed to the engine. *)
Module Crop.
Record t : Type := mk { source : Image.t; y0 : Z; y1 : Z; x0 : Z; x1 : Z }.
End Crop.

(** [dict(res)] in [run_module_once], for a sequence of pairs with [str]
    keys; everything else raises.  (A dict with other keys holds none of the
    keys the normalisers look up.) *)
Fixpoint dict_set (d : list (string * PyVal)) (key : string) (v : PyVal)
  : list (string * PyVal) :=
  match d with
  | [] => [(key, v)]
  | (k, v') :: d' =>
      if String.eqb k key then (k, v) :: d' else (k, v') :: dict_set d' key v
  end.

Definition py_dict (res : PyVal) : Res PyVal :=
  match res with
  | PList items | PTuple items =>
      pairs <- mapM (fun item =>
                 kv <- py_iter item ;;
                 match kv with
                 | [PStr k; v] => Ok (k, v)
                 | _ => Raise ValueError
                 end) items ;;
      Ok (PDict (fold_left (fun d kv => dict_set d (fst kv) (snd kv)) pairs []))
  | _ => Raise TypeError
  end.

Definition run_module_once (module_callable : Crop.t -> Res PyVal) (image_data : Crop.t)
  : Res PyVal :=
  res <- module_callable image_data ;;
  let res :=
    match res with
    | PTuple (first :: _) => first
    | PTuple [] => PDict []
    | _ => res
    end in
  match res with
  | PModel d => Ok (PDict d)
  | PDict _ => Ok res
  | _ =>
      match py_dict res with
      | Ok d => Ok d
      | Raise _ => Ok (PDict [])
      end
  end.

(** The grouping loop: [tiles_by_page[page_idx].append(spec)]. *)
Definition tiles_by_page (tile_specs : list TileSpec.t) : gmap Z (list TileSpec.t) :=
  fold_left
    (fun (m : gmap Z (list TileSpec.t)) spec =>
       let page_idx := TileSpec.pageIndex spec in
       <[page_idx := default [] (m !! page_idx) ++ [spec]]> m)
    tile_specs ∅.

(** [(x_px, y_px, w_px, h_px)] of a tile. *)
Definition tile_placement (bbox_norm : BBox.t) (page_width page_height : Z)
  : Z * Z * Z * Z :=
  (py_int (BBox.x bbox_norm * inject_Z page_width),
   py_int (BBox.y bbox_norm * inject_Z page_height),
   py_int (BBox.w bbox_norm * inject_Z page_width),
   py_int (BBox.h bbox_norm * inject_Z page_height)).

Definition crop_tile (img : Image.t) (x_px y_px w_px h_px : Z) : Crop.t :=
  Crop.mk img y_px (y_px + h_px) x_px (x_px + w_px).

(** *** Bbox objects

    The tile loops change bboxes in place, so what they do depends on which
    fields hold the same [BBox] object.  A store gives the state of the BBox
    object at each address; a token, a line and a block hold the address of
    their bbox.  No other field is assigned to. *)

Definition store : Type := nat -> BBox.t.

Definition store_set (s : store) (addr : nat) (b : BBox.t) : store :=
  fun a => if Nat.eqb a addr then b else s a.

Module TokenObj.
Record t : Type := mk { text : string; bbox : nat; confidence : option Q }.
End TokenObj.

Module LineObj.
Record t : Type := mk { text : string; bbox : nat; tokens : list TokenObj.t }.
End LineObj.

Module BlockObj.
Record t : Type :=
  mk { text : string; bbox : nat; blockType : string; lines : list LineObj.t }.
End BlockObj.

(** The objects behind a block that a normaliser returns.  Both normalisers
    create the bbox once ([bbox = BBox(...)], lines 367 and 518) and pass that
    one object to the [Line] (and the [Token]) and to the [Block]
    constructor, and a pydantic model keeps the object it is given: the
    block, its line and its token hold the same BBox object, here at
    address 0. *)
Definition token_objects (token : Token.t) : TokenObj.t :=
  TokenObj.mk (Token.text token) 0 (Token.confidence token).

Definition line_objects (line : Line.t) : LineObj.t :=
  LineObj.mk (Line.text line) 0 (map token_objects (Line.tokens line)).

Definition block_objects (block : Block.t) : BlockObj.t * store :=
  (BlockObj.mk (Block.text block) 0 (Block.blockType block)
     (map line_objects (Block.lines block)),
   fun _ => Block.bbox block).

(** The objects as values again, every bbox read from the store. *)
Definition read_token (s : store) (token : TokenObj.t) : Token.t :=
  Token.mk (TokenObj.text token) (s (TokenObj.bbox token)) (TokenObj.confidence token).

Definition read_line (s : store) (line : LineObj.t) : Line.t :=
  Line.mk (LineObj.text line) (s (LineObj.bbox line))
    (map (read_token s) (LineObj.tokens line)).

Definition read_block (s : store) (block : BlockObj.t) : Block.t :=
  Block.mk (BlockObj.text block) (s (BlockObj.bbox block)) (BlockObj.blockType block)
    (map (read_line s) (BlockObj.lines block)).

(** A block with all its bboxes, those of its lines and tokens too, set to
    one value. *)
Definition with_bbox (block : Block.t) (b : BBox.t) : Block.t :=
  Block.mk (Block.text block) b (Block.blockType block)
    (map (fun line =>
            Line.mk (Line.text line) b
              (map (fun token => Token.mk (Token.text token) b (Token.confidence token))
                   (Line.tokens line)))
         (Block.lines block)).

(** A loop that threads a state and stops at the first exception. *)
Fixpoint foldM {S A : Type} (f : S -> A -> Res S) (l : list A) (s : S) : Res S :=
  match l with
  | [] => Ok s
  | a :: l' => s' <- f s a ;; foldM f l' s'
  end.

Section Remap.
Variables (x_px y_px page_width page_height : Z).

(** The four assignments applied to one bbox. *)
Definition remap_bbox (b : BBox.t) : Res BBox.t :=
  x <- py_truediv (BBox.x b + inject_Z x_px) (inject_Z page_width) ;;
  y <- py_truediv (BBox.y b + inject_Z y_px) (inject_Z page_height) ;;
  w <- py_truediv (BBox.w b) (inject_Z page_width) ;;
  h <- py_truediv (BBox.h b) (inject_Z page_height) ;;
  Ok (BBox.mk x y w h).

(** The value the four assignments leave behind when no division fails. *)
Definition remap_value (b : BBox.t) : BBox.t :=
  BBox.mk ((BBox.x b + inject_Z x_px) / inject_Z page_width)
          ((BBox.y b + inject_Z y_px) / inject_Z page_height)
          (BBox.w b / inject_Z page_width)
          (BBox.h b / inject_Z page_height).

(** The four assignments on the BBox object at an address. *)
Definition remap_at (s : store) (addr : nat) : Res store :=
  b <- remap_bbox (s addr) ;; Ok (store_set s addr b).

(** The body of [for token in line.tokens], of [for line in block.lines]
    and of [for block in tile_page.blocks]. *)
Definition remap_token (s : store) (token : TokenObj.t) : Res store :=
  remap_at s (TokenObj.bbox token).

Definition remap_line (s : store) (line : LineObj.t) : Res store :=
  s <- remap_at s (LineObj.bbox line) ;;
  foldM remap_token (LineObj.tokens line) s.

Definition remap_block_objects (s : store) (block : BlockObj.t) : Res store :=
  s <- remap_at s (BlockObj.bbox block) ;;
  foldM remap_line (BlockObj.lines block) s.

(** The block a tile adds to [all_blocks]: the loops run on its objects,
    and the block is read when they are done. *)
Definition remap_block (block : Block.t) : Res Block.t :=
  let '(objects, s) := block_objects block in
  s <- remap_block_objects s objects ;;
  Ok (read_block s objects).

(** A cell holds a bbox dict of its own, a table and a figure a BBox of
    their own. *)
Definition remap_cell (cell : Cell.t PyVal) : Res (Cell.t PyVal) :=
  bbox <- remap_bbox (Cell.bbox cell) ;;
  Ok (Cell.mk (Cell.rowIndex cell) (Cell.colIndex cell) (Cell.rowSpan cell)
        (Cell.colSpan cell) (Cell.text cell) bbox).

Definition remap_table (table : Table.t) : Res Table.t :=
  bbox <- remap_bbox (Table.bbox table) ;;
  cells <- mapM remap_cell (Table.cells table) ;;
  Ok (Table.mk bbox (Table.rows table) (Table.cols table) cells).

Definition remap_figure (figure : Figure.t) : Res Figure.t :=
  bbox <- remap_bbox (Figure.bbox figure) ;;
  Ok (Figure.mk bbox (Figure.figureType figure)).

(** The transform back, from page-normalised to tile-local coordinates. *)
Definition unmap_bbox (b : BBox.t) : BBox.t :=
  BBox.mk (BBox.x b * inject_Z page_width - inject_Z x_px)
          (BBox.y b * inject_Z page_height - inject_Z y_px)
          (BBox.w b * inject_Z page_width)
          (BBox.h b * inject_Z page_height).
End Remap.

(** [for page_idx, img in enumerate(images)] *)
Fixpoint enumerate_from {A : Type} (start : Z) (l : list A) : list (Z * A) :=
  match l with
  | [] => []
  | a :: l' => (start, a) :: enumerate_from (start + 1) l'
  end.

(** [except Exception as e: raise HTTPException(status_code=500, ...)] *)
Definition or_http_500 {A : Type} (c : Res A) : Res A :=
  match c with
  | Ok a => Ok a
  | Raise _ => Raise (HTTPException 500)
  end.

(** The page loop both tile endpoints share, over the body [process_page]
    that handles the tiles of one page: a page without tiles is skipped
    ([continue]), the others are appended to [pages] in raster order. *)
Fixpoint tile_pages (process_page : Z -> Image.t -> list TileSpec.t -> Res Page.t)
    (by_page : gmap Z (list TileSpec.t)) (pages : list (Z * Image.t))
  : Res (list Page.t) :=
  match pages with
  | [] => Ok []
  | (page_idx, img) :: rest =>
      match by_page !! page_idx with
      | None => tile_pages process_page by_page rest
      | Some specs =>
          page <- process_page page_idx img specs ;;
          more <- tile_pages process_page by_page rest ;;
          Ok (page :: more)
      end
  end.

Section OcrTiles.
Variable ocr_module : Crop.t -> Res PyVal.
Variable dpi : Z.

(** One pass of [for tile_spec in tiles_by_page[page_idx]]: the remapped
    blocks the tile adds to [all_blocks]. *)
Definition ocr_tile (page_idx : Z) (img : Image.t) (tile_spec : TileSpec.t)
  : Res (list Block.t) :=
  let page_width := Image.width img in
  let page_height := Image.height img in
  let '(x_px, y_px, w_px, h_px) :=
    tile_placement (TileSpec.bboxNormalized tile_spec) page_width page_height in
  let tile_img := crop_tile img x_px y_px w_px h_px in
  tile_result <- run_module_once ocr_module tile_img ;;
  tile_page <- yomitoku_ocr_to_page tile_result page_idx dpi w_px h_px ;;
  mapM (remap_block x_px y_px page_width page_height) (Page.blocks tile_page).

Definition ocr_page (page_idx : Z) (img : Image.t) (specs : list TileSpec.t)
  : Res Page.t :=
  per_tile <- mapM (ocr_tile page_idx img) specs ;;
  let all_blocks := concat per_tile in
  deduplicated_blocks <- deduplicate_blocks_by_iou all_blocks (1 # 2) ;;
  Ok (Page.mk page_idx dpi (Image.width img) (Image.height img)
        deduplicated_blocks None None None).

(** The endpoint from the grouping of the tiles on: the pages of the
    response, or the HTTP error. *)
Definition ocr_only_tiles_endpoint (images : list Image.t) (tile_specs : list TileSpec.t)
  : Res (list Page.t) :=
  or_http_500
    (tile_pages ocr_page (tiles_by_page tile_specs) (enumerate_from 0 images)).
End OcrTiles.

Section LayoutTiles.
Variable format_value : PyVal -> string.
Variable layout_analyzer : Crop.t -> Res PyVal.
Variable dpi : Z.

Definition option_list {A : Type} (o : option (list A)) : list A :=
  match o with
  | Some l => l
  | None => []
  end.

Definition layout_tile (page_idx : Z) (img : Image.t) (tile_spec : TileSpec.t)
  : Res (list Block.t * list Table.t * list Figure.t) :=
  let page_width := Image.width img in
  let page_height := Image.height img in
  let '(x_px, y_px, w_px, h_px) :=
    tile_placement (TileSpec.bboxNormalized tile_spec) page_width page_height in
  let tile_img := crop_tile img x_px y_px w_px h_px in
  tile_result <- run_module_once layout_analyzer tile_img ;;
  tile_page <- yomitoku_result_to_page format_value tile_result page_idx dpi w_px h_px ;;
  blocks <- mapM (remap_block x_px y_px page_width page_height) (Page.blocks tile_page) ;;
  tables <- mapM (remap_table x_px y_px page_width page_height)
              (option_list (Page.tables tile_page)) ;;
  figures <- mapM (remap_figure x_px y_px page_width page_height)
               (option_list (Page.figures tile_page)) ;;
  Ok (blocks, tables, figures).

Definition layout_page (page_idx : Z) (img : Image.t) (specs : list TileSpec.t)
  : Res Page.t :=
  per_tile <- mapM (layout_tile page_idx img) specs ;;
  let all_blocks := concat (map (fun r => fst (fst r)) per_tile) in
  let all_tables := concat (map (fun r => snd (fst r)) per_tile) in
  let all_figures := concat (map snd per_tile) in
  deduplicated_blocks <- deduplicate_blocks_by_iou all_blocks (1 # 2) ;;
  Ok (Page.mk page_idx dpi (Image.width img) (Image.height img)
        deduplicated_blocks (non_empty all_tables) (non_empty all_figures) None).

Definition layout_only_tiles_endpoint (images : list Image.t) (tile_specs : list TileSpec.t)
  : Res (list Page.t) :=
  or_http_500
    (tile_pages layout_page (tiles_by_page tile_specs) (enumerate_from 0 images)).
End LayoutTiles.

(** ** Whole-page endpoints *)

(** [np.array(img)]: the whole pixel array of a page, written as the slice
    that covers it. *)
Definition whole_array (img : Image.t) : Crop.t :=
  Crop.mk img 0 (Image.height img) 0 (Image.width img).

Definition run_yomitoku_sync (analyzer_instance : Crop.t -> Res PyVal) (image_data : Crop.t)
  : Res PyVal :=
  result <- analyzer_instance image_data ;;
  let result :=
    match result with
    | PTuple (first :: _) => first
    | PTuple [] => PDict []
    | _ => result
    end in
  match result with
  | PModel d => Ok (PDict d)
  | PDict _ => Ok result
  | _ =>
      match py_dict result with
      | Ok d => Ok d
      | Raise _ => Ok (PDict [])
      end
  end.

Section WholePage.
Variable format_value : PyVal -> string.
Variable dpi : Z.

(** [/ocr]: every page goes through the analyzer and
    [yomitoku_result_to_page]; a failure on a page is raised as an
    [HTTPException] by the inner handler and again by the outer one. *)
Definition ocr_endpoint (selected_analyzer : Crop.t -> Res PyVal) (images : list Image.t)
  : Res (list Page.t) :=
  or_http_500
    (mapM (fun p : Z * Image.t =>
             let '(page_idx, img) := p in
             or_http_500
               (result <- run_yomitoku_sync selected_analyzer (whole_array img) ;;
                yomitoku_result_to_page format_value result page_idx dpi
                  (Image.width img) (Image.height img)))
          (enumerate_from 0 images)).

(** [/ocr/ocr-only] *)
Definition ocr_only_endpoint (ocr_module : Crop.t -> Res PyVal) (images : list Image.t)
  : Res (list Page.t) :=
  or_http_500
    (mapM (fun p : Z * Image.t =>
             let '(page_idx, img) := p in
             result <- run_module_once ocr_module (whole_array img) ;;
             yomitoku_ocr_to_page result page_idx dpi (Image.width img) (Image.height img))
          (enumerate_from 0 images)).

(** [/ocr/layout] *)
Definition layout_only_endpoint (layout_analyzer : Crop.t -> Res PyVal)
    (images : list Image.t) : Res (list Page.t) :=
  or_http_500
    (mapM (fun p : Z * Image.t =>
             let '(page_idx, img) := p in
             layout_result <- run_module_once layout_analyzer (whole_array img) ;;
             yomitoku_result_to_page format_value layout_result page_idx dpi
               (Image.width img) (Image.height img))
          (enumerate_from 0 images)).
End WholePage.

(** The tile that covers the whole page. *)
Definition full_tile (page_index : Z) : TileSpec.t :=
  TileSpec.mk page_index (BBox.mk 0 0 1 1) None.

(** *** Tile placement in the words of the specification *)

(** [round(q)]: to the nearest integer, a tie to the even one. *)
Definition py_round (q : Q) : Z :=
  let f := Qfloor q in
  let r := q - inject_Z f in
  if Qltb r (1 # 2) then f
  else if Qltb (1 # 2) r then (f + 1)%Z
  else if Z.even f then f else (f + 1)%Z.

Definition rounded_placement (bbox_norm : BBox.t) (page_width page_height : Z)
  : Z * Z * Z * Z :=
  (py_round (BBox.x bbox_norm * inject_Z page_width),
   py_round (BBox.y bbox_norm * inject_Z page_height),
   py_round (BBox.w bbox_norm * inject_Z page_width),
   py_round (BBox.h bbox_norm * inject_Z page_height)).

(** *** Sample engine results *)

Definition hi_paragraph : PyVal :=
  PDict [("box", PList [PInt 10; PInt 10; PInt 50; PInt 30]);
         ("contents", PStr "hi"); ("role", PNone)]%string.

(** A full-analysis payload with one paragraph, without and with the (empty)
    other fields. *)
Definition hi_payload : PyVal := PDict [("paragraphs", PList [hi_paragraph])]%string.

Definition hi_payload_full : PyVal :=
  PDict [("paragraphs", PList [hi_paragraph]); ("tables", PList []);
         ("figures", PList []); ("words", PList [])]%string.

Definition hi_box : BBox.t := BBox.mk 10 10 40 20.

Definition hi_page (page_index dpi width height : Z) : Page.t :=
  Page.mk page_index dpi width height
    [Block.mk "hi" hi_box "text" [Line.mk "hi" hi_box []]] None None None.

(** An OCR result that also carries layout data. *)
Definition word_with_layout : PyVal :=
  PDict [("words",
          PList [PDict [("points", PList [PList [PInt 1; PInt 2]; PList [PInt 5; PInt 2];
                                          PList [PInt 5; PInt 4]; PList [PInt 1; PInt 4]]);
                        ("content", PStr "ab"); ("rec_score", PFloat (9 # 10))]]);
         ("tables", PList [PDict [("box", PList [PInt 0; PInt 0; PInt 9; PInt 9])]]);
         ("figures", PList [PDict [("box", PList [PInt 0; PInt 0; PInt 3; PInt 3])]]);
         ("reading_order", PList [PInt 0])]%string.

(** [z] is [q] cut off toward zero: the integer of the same sign that is
    nearest to [q] among those no larger in magnitude. *)
Definition truncates (q : Q) (z : Z) : Prop :=
  (0 <= q -> inject_Z z <= q /\ q < inject_Z z + 1) /\
  (q <= 0 -> inject_Z z - 1 < q /\ q <= inject_Z z).

(** A tile whose corner falls at 1.7 px of a page of 1000 x 1000 px. *)
Definition tile_17 : BBox.t := BBox.mk (17 # 10000) (17 # 10000) (1 # 2) (1 # 2).

(** *** Coordinates up to [==] *)

Definition bbox_eq (a b : BBox.t) : Prop :=
  BBox.x a == BBox.x b /\ BBox.y a == BBox.y b /\
  BBox.w a == BBox.w b /\ BBox.h a == BBox.h b.

(** The point [s a + (1 - s) b] on the line through two boxes. *)
Definition bbox_mix (s : Q) (a b : BBox.t) : BBox.t :=
  BBox.mk (s * BBox.x a + (1 - s) * BBox.x b) (s * BBox.y a + (1 - s) * BBox.y b)
          (s * BBox.w a + (1 - s) * BBox.w b) (s * BBox.h a + (1 - s) * BBox.h b).

(** *** Sample requests *)

(** The tile names a page the raster has. *)
Definition in_range (n_pages : nat) (spec : TileSpec.t) : bool :=
  (0 <=? TileSpec.pageIndex spec)%Z && (TileSpec.pageIndex spec <? Z.of_nat n_pages)%Z.

(** An engine that finds nothing, whatever the crop. *)
Definition quiet_engine : Crop.t -> Res PyVal := fun _ => Ok (PDict []).

Definition page_1000 : Image.t := Image.mk 1000 1000 0.

Definition tile_off_range : TileSpec.t :=
  TileSpec.mk 7 (BBox.mk 0 0 (1 # 2) (1 # 2)) None.

Definition tile_zero_width : TileSpec.t :=
  TileSpec.mk 0 (BBox.mk (1 # 2) 0 0 (1 # 2)) None.

Definition tile_negative_height : TileSpec.t :=
  TileSpec.mk 0 (BBox.mk 0 (1 # 2) (1 # 2) (- (1 # 4))) None.

Definition empty_page (page_index dpi : Z) (img : Image.t) : Page.t :=
  Page.mk page_index dpi (Image.width img) (Image.height img) [] None None None.

(** Two overlapping boxes, and two paragraph blocks without tokens on one
    bbox. *)
Definition box_a : BBox.t := BBox.mk 0 0 2 2.
Definition box_b : BBox.t := BBox.mk 1 1 2 2.

Definition paragraph_block (text : string) (box : BBox.t) : Block.t :=
  Block.mk text box "text" [Line.mk text box []].

Definition para_A : Block.t := paragraph_block "A" unit_box.
Definition para_AA : Block.t := paragraph_block "AA" unit_box.


(** *** Further samples *)

Definition box_right : BBox.t := BBox.mk 2 0 1 1.
Definition box_flat : BBox.t := BBox.mk 1 1 3 0.

Definition word_far : Block.t := word_block "B" (BBox.mk 5 5 1 1) (Some (1 # 2)).

(** An engine that fails, and engines that return no dict. *)
Definition failing_engine : Crop.t -> Res PyVal := fun _ => Raise ValueError.
Definition none_engine : Crop.t -> Res PyVal := fun _ => Ok PNone.

Definition sample_word : PyVal :=
  PDict [("points", PList [PList [PInt 1; PInt 2]; PList [PInt 5; PInt 2];
                           PList [PInt 5; PInt 4]; PList [PInt 1; PInt 4]]);
         ("content", PStr "ab"); ("rec_score", PFloat (9 # 10))]%string.

Definition sample_word_block : Block.t :=
  word_block "ab" (BBox.mk 1 2 4 2) (Some (9 # 10)).

Definition ordered_payload : list (string * PyVal) :=
  [("paragraphs", PList [hi_paragraph]); ("reading_order", PList (map PInt [0%Z]))]%string.

Definition bad_words : list (string * PyVal) :=
  [("words", PList [sample_word; PNone])]%string.

Definition tile_inner : BBox.t := BBox.mk (1 # 4) (1 # 4) (1 # 2) (1 # 2).

(** Engines that find one word, or one paragraph, in whatever they are
    given, and the tile on the right half of a page. *)
Definition word_engine : Crop.t -> Res PyVal :=
  fun _ => Ok (PDict [("words", PList [sample_word])]%string).

Definition paragraph_engine : Crop.t -> Res PyVal := fun _ => Ok hi_payload.

Definition tile_right_half : TileSpec.t :=
  TileSpec.mk 0 (BBox.mk (1 # 2) 0 (1 # 2) 1) None.

(** * Properties *)

(** ** Comparisons on rationals *)

Lemma Qltb_true (a b : Q) : Qltb a b = true <-> a < b.
Proof.
  unfold Qltb. rewrite negb_true_iff, <- not_true_iff_false, Qle_bool_iff.
  split; [apply Qnot_le_lt | apply Qlt_not_le].
Qed.

Lemma Qltb_false (a b : Q) : Qltb a b = false <-> b <= a.
Proof.
  unfold Qltb. rewrite negb_false_iff. apply Qle_bool_iff.
Qed.

Lemma Qle_bool_false (a b : Q) : Qle_bool a b = false <-> b < a.
Proof.
  rewrite <- not_true_iff_false, Qle_bool_iff.
  split; [apply Qnot_le_lt | apply Qlt_not_le].
Qed.

Lemma py_max_Qmax (a b : Q) : py_max a b = Qmax a b.
Proof.
  unfold py_max, Qltb, Qle_bool, Qmax, GenericMinMax.gmax, Qcompare.
  destruct (Z.compare_spec (Qnum a * QDen b) (Qnum b * QDen a)) as [E | E | E];
    destruct (Z.leb_spec (Qnum b * QDen a) (Qnum a * QDen b)); simpl; try reflexivity; lia.
Qed.

Lemma py_min_Qmin (a b : Q) : py_min a b = Qmin a b.
Proof.
  unfold py_min, Qltb, Qle_bool, Qmin, GenericMinMax.gmin, Qcompare.
  destruct (Z.compare_spec (Qnum a * QDen b) (Qnum b * QDen a)) as [E | E | E];
    destruct (Z.leb_spec (Qnum a * QDen b) (Qnum b * QDen a)); simpl; try reflexivity; lia.
Qed.

(** ** [calculate_bbox_iou] *)

Lemma py_truediv_pos (a b : Q) : 0 < b -> py_truediv a b = Ok (a / b).
Proof.
  intros Hb. unfold py_truediv.
  destruct (Qeq_bool b 0) eqn:E; [| reflexivity].
  apply Qeq_bool_iff in E. rewrite E in Hb. exfalso. revert Hb. apply Qlt_irrefl.
Qed.

Lemma calculate_bbox_iou_unfold (a b : BBox.t) :
  calculate_bbox_iou a b =
    if Qle_bool (inter_width a b) 0 || Qle_bool (inter_height a b) 0 then Ok 0
    else if Qltb 0 (union_area a b)
         then Ok (intersection_area a b / union_area a b) else Ok 0.
Proof.
  unfold calculate_bbox_iou, union_area, intersection_area, area, inter_width, inter_height.
  rewrite !py_max_Qmax, !py_min_Qmin.
  set (x1 := Qmax (BBox.x a) (BBox.x b)). set (y1 := Qmax (BBox.y a) (BBox.y b)).
  set (x2 := Qmin _ _). set (y2 := Qmin _ _).
  assert (Hle : forall p q, Qle_bool p q = Qle_bool (p - q) 0).
  { intros p q. apply eq_true_iff_eq. rewrite !Qle_bool_iff. split; intros; lra. }
  rewrite (Hle x2 x1), (Hle y2 y1).
  destruct (_ || _); [reflexivity |].
  destruct (Qltb 0 _) eqn:E; [| reflexivity].
  apply py_truediv_pos, Qltb_true, E.
Qed.

Lemma calculate_bbox_iou_returns (a b : BBox.t) :
  calculate_bbox_iou a b = Ok (iou_of a b).
Proof.
  unfold iou_of. rewrite calculate_bbox_iou_unfold.
  destruct (_ || _); [reflexivity |]. destruct (Qltb _ _); reflexivity.
Qed.

Lemma inter_width_le (a b : BBox.t) :
  inter_width a b <= BBox.w a /\ inter_width a b <= BBox.w b.
Proof.
  unfold inter_width.
  pose proof (Q.le_min_l (BBox.x a + BBox.w a) (BBox.x b + BBox.w b)).
  pose proof (Q.le_min_r (BBox.x a + BBox.w a) (BBox.x b + BBox.w b)).
  pose proof (Q.le_max_l (BBox.x a) (BBox.x b)).
  pose proof (Q.le_max_r (BBox.x a) (BBox.x b)).
  split; lra.
Qed.

Lemma inter_height_le (a b : BBox.t) :
  inter_height a b <= BBox.h a /\ inter_height a b <= BBox.h b.
Proof.
  unfold inter_height.
  pose proof (Q.le_min_l (BBox.y a + BBox.h a) (BBox.y b + BBox.h b)).
  pose proof (Q.le_min_r (BBox.y a + BBox.h a) (BBox.y b + BBox.h b)).
  pose proof (Q.le_max_l (BBox.y a) (BBox.y b)).
  pose proof (Q.le_max_r (BBox.y a) (BBox.y b)).
  split; lra.
Qed.

(** With a positive intersection the union is at least the intersection,
    hence positive: the guard on the division never fires. *)
Lemma intersection_le_union (a b : BBox.t) :
  0 < inter_width a b -> 0 < inter_height a b ->
  0 < intersection_area a b <= union_area a b.
Proof.
  intros Hw Hh. unfold union_area, intersection_area, area.
  destruct (inter_width_le a b) as [Hwa Hwb].
  destruct (inter_height_le a b) as [Hha Hhb].
  set (iw := inter_width a b) in *. set (ih := inter_height a b) in *.
  split; nra.
Qed.

(** C7 (the claim fails as stated): computed in binary64, the IoU of the box
    (0.1, 0, 0.2, 1) with itself is 1.0000000000000002, above 1: the
    intersection width (0.1 + 0.2) - 0.1 is rounded to a number above 0.2. *)
Lemma iou_exceeds_one_in_binary64 :
  calculate_bbox_iou_f64 strip_box strip_box = Ok 0x1.0000000000001p+0%float /\
  PrimFloat.ltb 1%float 0x1.0000000000001p+0%float = true.
Proof.
  split; vm_compute; reflexivity.
Qed.

(** C7, as amended: on boxes with non-negative width and height,
    [calculate_bbox_iou] returns a number (it never raises); that number is 0
    when the width or the height of the intersection rectangle is at most 0;
    otherwise it is intersection / (area a + area b - intersection), and 0 if
    that union area is 0; over exact arithmetic it lies between 0 and 1. *)
Theorem calculate_bbox_iou_spec (a b : BBox.t) :
  0 <= BBox.w a -> 0 <= BBox.h a -> 0 <= BBox.w b -> 0 <= BBox.h b ->
  exists v : Q,
    calculate_bbox_iou a b = Ok v /\
    (inter_width a b <= 0 \/ inter_height a b <= 0 -> v == 0) /\
    (0 < inter_width a b -> 0 < inter_height a b ->
       (union_area a b == 0 -> v == 0) /\
       (~ union_area a b == 0 -> v == intersection_area a b / union_area a b)) /\
    0 <= v <= 1.
Proof.
  intros Hwa Hha Hwb Hhb.
  rewrite calculate_bbox_iou_unfold.
  destruct (Qle_bool (inter_width a b) 0) eqn:Ew; simpl.
  { apply Qle_bool_iff in Ew. exists 0. repeat split; try reflexivity; try lra.
    all: intros; lra. }
  destruct (Qle_bool (inter_height a b) 0) eqn:Eh; simpl.
  { apply Qle_bool_iff in Eh. exists 0. repeat split; try reflexivity; try lra.
    all: intros; lra. }
  apply Qle_bool_false in Ew, Eh.
  destruct (intersection_le_union a b Ew Eh) as [Hi Hu].
  assert (Hpos : 0 < union_area a b) by lra.
  apply Qltb_true in Hpos as Hb. rewrite Hb.
  exists (intersection_area a b / union_area a b).
  split; [reflexivity |]. split; [intros [H | H]; lra |]. split.
  - intros _ _. split; [intros H0; lra | reflexivity].
  - split.
    + apply Qle_shift_div_l; [exact Hpos | lra].
    + apply Qle_shift_div_r; [exact Hpos | lra].
Qed.

(** ** The sort key *)

Lemma key_denominator_pos (n : nat) : 0 < inject_Z (Z.of_nat (Nat.max 1 n)).
Proof.
  change 0 with (inject_Z 0). rewrite <- Zlt_Qlt. lia.
Qed.

Lemma sort_key_returns (b : Block.t) : sort_key b = Ok (score_of b).
Proof.
  unfold sort_key, score_of. rewrite py_truediv_pos by apply key_denominator_pos.
  reflexivity.
Qed.

Lemma token_count_length (b : Block.t) : token_count b = length (block_tokens b).
Proof.
  unfold token_count, block_tokens.
  enough (H : forall ls acc,
             fold_left (fun a line => (a + length (Line.tokens line))%nat) ls acc
             = (acc + length (flat_map Line.tokens ls))%nat) by apply (H _ 0%nat).
  induction ls as [| l ls IH]; intros acc; simpl.
  - lia.
  - rewrite IH, length_app. lia.
Qed.

Lemma sum_confidence_foldr (b : Block.t) :
  sum_confidence b ==
  fold_right (fun t acc => confidence_or_zero t + acc) 0 (block_tokens b).
Proof.
  unfold sum_confidence.
  enough (H : forall ts acc,
             fold_left (fun a t => a + confidence_or_zero t) ts acc
             == acc + fold_right (fun t a => confidence_or_zero t + a) 0 ts).
  { rewrite H. lra. }
  induction ts as [| t ts IH]; intros acc; simpl.
  - lra.
  - rewrite IH. lra.
Qed.

Lemma score_of_score (b : Block.t) :
  fst (score_of b) == fst (score b) /\ snd (score_of b) = snd (score b).
Proof.
  unfold score_of, score, mean_confidence; simpl. split; [| reflexivity].
  rewrite token_count_length, sum_confidence_foldr. reflexivity.
Qed.

(** ** The order on keys *)

Lemma key_ltb_false (k1 k2 : Q * nat) : key_ltb k1 k2 = false <-> key_ge k1 k2.
Proof.
  unfold key_ltb, key_ge. rewrite orb_false_iff, andb_false_iff, Qltb_false.
  rewrite Nat.ltb_ge, <- not_true_iff_false, Qeq_bool_iff.
  split.
  - intros [Hle [Hne | Hn]].
    + left. apply Qle_lteq in Hle as [Hlt | Heq]; [exact Hlt |].
      exfalso. apply Hne. symmetry. exact Heq.
    + apply Qle_lteq in Hle as [Hlt | Heq]; [left; exact Hlt |].
      right. split; [symmetry; exact Heq | exact Hn].
  - intros [Hlt | [Heq Hn]].
    + split; [apply Qlt_le_weak, Hlt |]. left. intros Heq. rewrite Heq in Hlt.
      revert Hlt. apply Qlt_irrefl.
    + split; [rewrite Heq; apply Qle_refl | right; exact Hn].
Qed.

Lemma key_ge_trans (k1 k2 k3 : Q * nat) : key_ge k1 k2 -> key_ge k2 k3 -> key_ge k1 k3.
Proof.
  unfold key_ge. intros [H12 | [E12 N12]] [H23 | [E23 N23]].
  - left. lra.
  - left. lra.
  - left. lra.
  - right. split; [lra | lia].
Qed.

Lemma key_ge_score (b1 b2 : Block.t) :
  key_ge (score_of b1) (score_of b2) <-> key_ge (score b1) (score b2).
Proof.
  destruct (score_of_score b1) as [E1 N1], (score_of_score b2) as [E2 N2].
  unfold key_ge. rewrite E1, E2, N1, N2. reflexivity.
Qed.

Lemma key_ltb_true_ge (k1 k2 : Q * nat) : key_ltb k1 k2 = true -> key_ge k2 k1.
Proof.
  unfold key_ltb, key_ge. rewrite orb_true_iff, andb_true_iff, Qltb_true, Nat.ltb_lt.
  rewrite Qeq_bool_iff. intros [Hlt | [Heq Hn]]; [left; exact Hlt |].
  right. split; [symmetry; exact Heq | lia].
Qed.

(** ** The stable descending sort *)

Section Sorting.
Context {A : Type}.
Implicit Types (e : (Q * nat) * A) (l : list ((Q * nat) * A)).

Let R e1 e2 : Prop := key_ge (fst e1) (fst e2).

Lemma insert_desc_perm e l : Permutation (e :: l) (insert_desc e l).
Proof.
  induction l as [| e' l IH]; simpl; [reflexivity |].
  destruct (key_ltb (fst e) (fst e')); [| reflexivity].
  rewrite perm_swap. apply perm_skip, IH.
Qed.

Lemma sort_desc_perm l : Permutation l (sort_desc l).
Proof.
  induction l as [| e l IH]; simpl; [reflexivity |].
  rewrite <- insert_desc_perm. apply perm_skip, IH.
Qed.

Lemma insert_desc_sorted e l :
  StronglySorted R l -> StronglySorted R (insert_desc e l).
Proof.
  induction 1 as [| e' l Hs IH Hall]; simpl.
  - repeat constructor.
  - destruct (key_ltb (fst e) (fst e')) eqn:E.
    + constructor; [exact IH |].
      rewrite <- insert_desc_perm. constructor; [| exact Hall].
      apply key_ltb_true_ge, E.
    + apply key_ltb_false in E.
      constructor; [constructor; assumption |].
      constructor; [exact E |].
      eapply Forall_impl; [exact Hall |].
      intros x Hx. eapply key_ge_trans; [exact E | exact Hx].
Qed.

Lemma sort_desc_sorted l : StronglySorted R (sort_desc l).
Proof.
  induction l as [| e l IH]; simpl; [constructor | apply insert_desc_sorted, IH].
Qed.

(** Sorting a list that is already in descending order changes nothing:
    the sort is stable, so ties stay where they are. *)
Lemma sort_desc_id l : StronglySorted R l -> sort_desc l = l.
Proof.
  induction 1 as [| e l Hs IH Hall]; simpl; [reflexivity |].
  rewrite IH. destruct l as [| e' l']; simpl; [reflexivity |].
  apply Forall_inv in Hall. apply key_ltb_false in Hall. rewrite Hall. reflexivity.
Qed.
End Sorting.

Lemma mapM_decorate (blocks : list Block.t) :
  mapM decorate blocks = Ok (map (fun b => (score_of b, b)) blocks).
Proof.
  induction blocks as [| b bs IH]; simpl; [reflexivity |].
  unfold decorate at 1. rewrite sort_key_returns. simpl. rewrite IH. reflexivity.
Qed.

Lemma sorted_reverse_returns (blocks : list Block.t) :
  sorted_reverse blocks = Ok (sorted_of blocks).
Proof.
  unfold sorted_reverse, sorted_of. rewrite mapM_decorate. reflexivity.
Qed.

Lemma sorted_of_perm (blocks : list Block.t) : Permutation blocks (sorted_of blocks).
Proof.
  unfold sorted_of. rewrite <- sort_desc_perm, map_map. simpl. rewrite map_id. reflexivity.
Qed.

Lemma decorated_sorted_descending (l : list ((Q * nat) * Block.t)) :
  Forall (fun e => fst e = score_of (snd e)) l ->
  StronglySorted (fun e1 e2 => key_ge (fst e1) (fst e2)) l ->
  descending (map snd l).
Proof.
  intros Hk Hs. induction Hs as [| e l Hs IH Hall]; simpl; [constructor |].
  apply Forall_cons_1 in Hk as [He Hl]. constructor; [apply IH, Hl |].
  apply Forall_map. rewrite Forall_forall in *. intros e' Hin. simpl.
  apply key_ge_score. rewrite <- He, <- (Hl e' Hin). apply Hall, Hin.
Qed.

Lemma sorted_of_descending (blocks : list Block.t) : descending (sorted_of blocks).
Proof.
  apply decorated_sorted_descending; [| apply sort_desc_sorted].
  rewrite <- sort_desc_perm. apply Forall_map, Forall_forall. reflexivity.
Qed.

Lemma sorted_of_id (blocks : list Block.t) : descending blocks -> sorted_of blocks = blocks.
Proof.
  intros Hd. unfold sorted_of. rewrite sort_desc_id.
  - rewrite map_map. simpl. apply map_id.
  - induction Hd as [| b l Hs IH Hall]; simpl; constructor; [exact IH |].
    apply Forall_map. eapply Forall_impl; [exact Hall |].
    intros b' Hb'. simpl. apply key_ge_score, Hb'.
Qed.

(** ** The greedy walk *)

Lemma is_duplicate_returns (t : Q) (b : Block.t) (kept : list Block.t) :
  is_duplicate b kept t = Ok (existsb (exceeds t b) kept).
Proof.
  induction kept as [| k kept IH]; simpl; [reflexivity |].
  rewrite calculate_bbox_iou_returns. simpl. unfold exceeds at 1.
  destruct (Qltb t _); [reflexivity | exact IH].
Qed.

Lemma keep_loop_returns (t : Q) (l kept : list Block.t) :
  keep_loop l kept t = Ok (kept_after t l kept).
Proof.
  revert kept. induction l as [| b l IH]; intros kept; simpl; [reflexivity |].
  rewrite is_duplicate_returns. simpl.
  destruct (existsb _ _); apply IH.
Qed.

Lemma deduplicate_returns (blocks : list Block.t) (t : Q) :
  deduplicate_blocks_by_iou blocks t =
    Ok (if (length blocks <=? 1)%nat then blocks
        else kept_after t (sorted_of blocks) []).
Proof.
  unfold deduplicate_blocks_by_iou. destruct (_ <=? _)%nat; [reflexivity |].
  rewrite sorted_reverse_returns. simpl. apply keep_loop_returns.
Qed.

Lemma existsb_exceeds_false (t : Q) (b : Block.t) (kept : list Block.t) :
  existsb (exceeds t b) kept = false <->
  Forall (fun k => iou_of (Block.bbox b) (Block.bbox k) <= t) kept.
Proof.
  induction kept as [| k kept IH]; simpl.
  - split; [constructor | reflexivity].
  - rewrite orb_false_iff, IH, Forall_cons. unfold exceeds at 1.
    rewrite Qltb_false. reflexivity.
Qed.

Lemma existsb_exceeds_true (t : Q) (b : Block.t) (kept : list Block.t) :
  existsb (exceeds t b) kept = true <->
  Exists (fun k => t < iou_of (Block.bbox b) (Block.bbox k)) kept.
Proof.
  induction kept as [| k kept IH]; simpl.
  - split; [discriminate | intros H; inversion H].
  - rewrite orb_true_iff, IH, Exists_cons. unfold exceeds at 1.
    rewrite Qltb_true. reflexivity.
Qed.

Lemma kept_after_walk (t : Q) (l kept : list Block.t) :
  walk t kept l (kept_after t l kept).
Proof.
  revert kept. induction l as [| b l IH]; intros kept; simpl; [constructor |].
  destruct (existsb _ _) eqn:E.
  - apply walk_drop; [apply existsb_exceeds_true, E | apply IH].
  - apply walk_keep; [apply existsb_exceeds_false, E | apply IH].
Qed.

(** The walk is a function: the kept-list it ends with is determined. *)
Lemma walk_functional (t : Q) (kept l out : list Block.t) :
  walk t kept l out -> out = kept_after t l kept.
Proof.
  induction 1 as [kept | kept b l out Hall _ IH | kept b l out Hex _ IH]; simpl.
  - reflexivity.
  - apply existsb_exceeds_false in Hall. rewrite Hall. exact IH.
  - apply existsb_exceeds_true in Hex. rewrite Hex. exact IH.
Qed.

Lemma kept_after_sublist (t : Q) (l kept : list Block.t) :
  exists sel, kept_after t l kept = kept ++ sel /\ sel `sublist_of` l.
Proof.
  revert kept. induction l as [| b l IH]; intros kept; simpl.
  - exists []. rewrite app_nil_r. split; [reflexivity | constructor].
  - destruct (existsb _ _).
    + destruct (IH kept) as (sel & -> & Hsub). exists sel.
      split; [reflexivity | apply sublist_cons, Hsub].
    + destruct (IH (kept ++ [b])) as (sel & -> & Hsub). exists (b :: sel).
      rewrite <- app_assoc. split; [reflexivity | apply sublist_skip, Hsub].
Qed.

Lemma separated_nil (t : Q) : separated t [].
Proof. intros n b H. destruct n; discriminate. Qed.

Lemma separated_snoc (t : Q) (kept : list Block.t) (b : Block.t) :
  separated t kept -> existsb (exceeds t b) kept = false -> separated t (kept ++ [b]).
Proof.
  intros Hs Hb n c Hn.
  destruct (Nat.lt_ge_cases n (length kept)) as [Hlt | Hge].
  - rewrite lookup_app_l in Hn by exact Hlt.
    rewrite take_app_le by lia. apply Hs, Hn.
  - rewrite lookup_app_r in Hn by exact Hge.
    destruct (n - length kept)%nat as [| m] eqn:En; [| destruct m; discriminate].
    injection Hn as <-. assert (n = length kept) as -> by lia.
    rewrite take_app_length. exact Hb.
Qed.

Lemma kept_after_separated (t : Q) (l kept : list Block.t) :
  separated t kept -> separated t (kept_after t l kept).
Proof.
  revert kept. induction l as [| b l IH]; intros kept Hs; simpl; [exact Hs |].
  destruct (existsb _ _) eqn:E; [apply IH, Hs |].
  apply IH, separated_snoc; assumption.
Qed.

(** Walking a list in which no block exceeds the threshold against an
    earlier one keeps every block. *)
Lemma kept_after_fix (t : Q) (l kept : list Block.t) :
  separated t (kept ++ l) -> kept_after t l kept = kept ++ l.
Proof.
  revert kept. induction l as [| b l IH]; intros kept Hs; simpl.
  - symmetry. apply app_nil_r.
  - assert (Hb : existsb (exceeds t b) kept = false).
    { specialize (Hs (length kept) b). rewrite take_app_length in Hs.
      apply Hs. rewrite lookup_app_r by lia. rewrite Nat.sub_diag. reflexivity. }
    rewrite Hb, IH; rewrite <- app_assoc; [reflexivity | exact Hs].
Qed.

Lemma descending_sublist (l l' : list Block.t) :
  l' `sublist_of` l -> descending l -> descending l'.
Proof.
  unfold descending. induction 1 as [| b l1 l2 Hsub IH | b l1 l2 Hsub IH]; intros Hd.
  - constructor.
  - apply StronglySorted_inv in Hd as [Hd Hall].
    constructor; [apply IH, Hd |].
    rewrite Forall_forall in *. intros c Hc. apply Hall.
    eapply elem_of_sublist; eassumption.
  - apply StronglySorted_inv in Hd as [Hd _]. apply IH, Hd.
Qed.

(** ** Symmetry of the IoU *)

Lemma inter_width_comm (a b : BBox.t) : inter_width a b == inter_width b a.
Proof.
  unfold inter_width.
  rewrite (Q.min_comm (BBox.x a + BBox.w a)), (Q.max_comm (BBox.x a)). reflexivity.
Qed.

Lemma inter_height_comm (a b : BBox.t) : inter_height a b == inter_height b a.
Proof.
  unfold inter_height.
  rewrite (Q.min_comm (BBox.y a + BBox.h a)), (Q.max_comm (BBox.y a)). reflexivity.
Qed.

Lemma intersection_area_comm (a b : BBox.t) :
  intersection_area a b == intersection_area b a.
Proof.
  unfold intersection_area. rewrite inter_width_comm, inter_height_comm. reflexivity.
Qed.

Lemma union_area_comm (a b : BBox.t) : union_area a b == union_area b a.
Proof.
  unfold union_area. rewrite intersection_area_comm. lra.
Qed.

Lemma iou_of_comm (a b : BBox.t) : iou_of a b == iou_of b a.
Proof.
  unfold iou_of. rewrite !calculate_bbox_iou_unfold.
  assert (Ew : Qle_bool (inter_width a b) 0 = Qle_bool (inter_width b a) 0)
    by (apply Qleb_comp; [apply inter_width_comm | reflexivity]).
  assert (Eh : Qle_bool (inter_height a b) 0 = Qle_bool (inter_height b a) 0)
    by (apply Qleb_comp; [apply inter_height_comm | reflexivity]).
  assert (Eu : Qltb 0 (union_area a b) = Qltb 0 (union_area b a)).
  { unfold Qltb. f_equal. apply Qleb_comp; [apply union_area_comm | reflexivity]. }
  rewrite Ew, Eh. destruct (_ || _); [reflexivity |].
  rewrite Eu. destruct (Qltb 0 (union_area b a)); [| reflexivity].
  rewrite intersection_area_comm, union_area_comm. reflexivity.
Qed.

(** ** The resolver: idempotence, selection, separation *)

Lemma kept_after_descending (t : Q) (blocks : list Block.t) :
  descending (kept_after t (sorted_of blocks) []).
Proof.
  destruct (kept_after_sublist t (sorted_of blocks) []) as (sel & -> & Hsub).
  simpl. eapply descending_sublist; [exact Hsub | apply sorted_of_descending].
Qed.

Lemma short_list_separated (t : Q) (l : list Block.t) :
  (length l <= 1)%nat -> separated t l.
Proof.
  intros Hlen n b Hn. apply lookup_lt_Some in Hn.
  assert (n = 0%nat) as -> by lia. rewrite take_0. reflexivity.
Qed.

Lemma deduplicate_separated (blocks out : list Block.t) (t : Q) :
  deduplicate_blocks_by_iou blocks t = Ok out -> separated t out.
Proof.
  rewrite deduplicate_returns. intros [= <-].
  destruct (length blocks <=? 1)%nat eqn:E.
  - apply short_list_separated, Nat.leb_le, E.
  - apply kept_after_separated, separated_nil.
Qed.

(** C6: the resolver is idempotent.  It returns on every pool, and run again
    on its own output with the same threshold it returns that output: the
    same blocks in the same order. *)
Theorem deduplicate_idempotent (blocks : list Block.t) (t : Q) :
  exists out : list Block.t,
    deduplicate_blocks_by_iou blocks t = Ok out /\
    deduplicate_blocks_by_iou out t = Ok out.
Proof.
  rewrite deduplicate_returns. eexists. split; [reflexivity |].
  rewrite deduplicate_returns. f_equal.
  destruct (length blocks <=? 1)%nat eqn:E.
  - rewrite E. reflexivity.
  - destruct (length (kept_after _ _ _) <=? 1)%nat; [reflexivity |].
    rewrite sorted_of_id by apply kept_after_descending.
    rewrite kept_after_fix; [reflexivity |]. simpl.
    apply kept_after_separated, separated_nil.
Qed.

(** C9: the output of the resolver is drawn from the input pool: it is a
    sub-multiset of the pool, block for block, nothing created or changed; and
    any two blocks at distinct positions of the output have an IoU of at most
    the threshold. *)
Theorem deduplicate_selects_separated (blocks : list Block.t) (t : Q) :
  exists out : list Block.t,
    deduplicate_blocks_by_iou blocks t = Ok out /\
    out ⊆+ blocks /\
    (forall b, In b out -> In b blocks) /\
    forall (i j : nat) (bi bj : Block.t),
      i <> j -> out !! i = Some bi -> out !! j = Some bj ->
      exists v : Q,
        calculate_bbox_iou (Block.bbox bi) (Block.bbox bj) = Ok v /\ v <= t.
Proof.
  destruct (deduplicate_blocks_by_iou blocks t) as [out | e] eqn:Hout;
    [| rewrite deduplicate_returns in Hout; discriminate].
  exists out. split; [reflexivity |].
  assert (Hsep := deduplicate_separated _ _ _ Hout).
  assert (Hsub : out ⊆+ blocks).
  { rewrite deduplicate_returns in Hout. injection Hout as <-.
    destruct (_ <=? _)%nat; [reflexivity |].
    destruct (kept_after_sublist t (sorted_of blocks) []) as (sel & -> & Hs).
    simpl. apply submseteq_sublist_l. exists (sorted_of blocks).
    split; [exact Hs | symmetry; apply sorted_of_perm]. }
  split; [exact Hsub |]. split.
  { intros b Hb. apply list_elem_of_In. apply list_elem_of_In in Hb.
    eapply elem_of_submseteq; eassumption. }
  assert (Hlt : forall i j bi bj, (i < j)%nat -> out !! i = Some bi -> out !! j = Some bj ->
                  iou_of (Block.bbox bj) (Block.bbox bi) <= t).
  { intros i j bi bj Hij Hi Hj. specialize (Hsep j bj Hj).
    apply existsb_exceeds_false in Hsep. rewrite Forall_forall in Hsep.
    apply Hsep. apply list_elem_of_lookup. exists i.
    rewrite lookup_take_lt by exact Hij. exact Hi. }
  intros i j bi bj Hne Hi Hj. exists (iou_of (Block.bbox bi) (Block.bbox bj)).
  split; [apply calculate_bbox_iou_returns |].
  destruct (Nat.lt_gt_cases i j) as [Hcase _]. destruct (Hcase Hne) as [Hij | Hji].
  - rewrite iou_of_comm. eapply Hlt; eassumption.
  - eapply Hlt; eassumption.
Qed.

(** ** The resolver: sort, then walk *)

Lemma iou_of_self (a : BBox.t) : 0 < BBox.w a -> 0 < BBox.h a -> iou_of a a == 1.
Proof.
  intros Hw Hh. unfold iou_of. rewrite calculate_bbox_iou_unfold.
  assert (Ew : inter_width a a == BBox.w a).
  { unfold inter_width. rewrite Q.min_id, Q.max_id. lra. }
  assert (Eh : inter_height a a == BBox.h a).
  { unfold inter_height. rewrite Q.min_id, Q.max_id. lra. }
  assert (Ei : intersection_area a a == BBox.w a * BBox.h a).
  { unfold intersection_area. rewrite Ew, Eh. reflexivity. }
  assert (Eu : union_area a a == BBox.w a * BBox.h a).
  { unfold union_area, area. rewrite Ei. lra. }
  assert (Hpos : 0 < BBox.w a * BBox.h a) by nra.
  assert (Qle_bool (inter_width a a) 0 = false) as -> by (apply Qle_bool_false; lra).
  assert (Qle_bool (inter_height a a) 0 = false) as -> by (apply Qle_bool_false; lra).
  assert (Qltb 0 (union_area a a) = true) as -> by (apply Qltb_true; lra).
  simpl. rewrite Ei, Eu. field. lra.
Qed.

(** C1 (the claim fails as stated): two blocks with one bbox and the texts
    "A" and "AA", where the "A" word was recognised with the higher
    confidence; at threshold 0.5 the resolver keeps "A", not "AA". *)
Lemma longer_text_not_always_kept :
  Block.bbox word_A = Block.bbox word_AA /\
  Block.text word_A = "A"%string /\ Block.text word_AA = "AA"%string /\
  deduplicate_blocks_by_iou [word_A; word_AA] (1 # 2) = Ok [word_A] /\
  deduplicate_blocks_by_iou [word_AA; word_A] (1 # 2) = Ok [word_A] /\
  deduplicate_blocks_by_iou [word_A; word_AA] (1 # 2) <> Ok [word_AA].
Proof.
  repeat split; try reflexivity. vm_compute. discriminate.
Qed.

Lemma equal_confidence_longer_first (b1 b2 : Block.t) :
  mean_confidence b1 == mean_confidence b2 ->
  (String.length (Block.text b1) < String.length (Block.text b2))%nat ->
  key_ltb (score_of b1) (score_of b2) = true /\
  key_ltb (score_of b2) (score_of b1) = false.
Proof.
  intros Hm Hlen.
  destruct (score_of_score b1) as [E1 _], (score_of_score b2) as [E2 _].
  change (fst (score b1)) with (mean_confidence b1) in E1.
  change (fst (score b2)) with (mean_confidence b2) in E2.
  split.
  - unfold key_ltb. apply orb_true_iff. right. apply andb_true_iff. split.
    + apply Qeq_bool_iff. rewrite E1, E2. exact Hm.
    + apply Nat.ltb_lt. exact Hlen.
  - apply key_ltb_false. right. split; [rewrite E1, E2; symmetry; exact Hm |].
    simpl. lia.
Qed.

(** C1, as amended: on every pool the resolver returns the kept-list of the
    walk over the pool sorted in descending lexicographic order of (mean
    token confidence, text length), a block being kept exactly when its IoU
    with every block kept before it is at most the threshold.  For two blocks
    with one bbox of positive area, the texts "A" and "AA" and equal mean
    confidence, at threshold 0.5 exactly the "AA" block is kept, in whichever
    order the pool lists them. *)
Theorem deduplicate_sorts_then_walks
    (blocks : list Block.t) (t : Q) (bA bAA : Block.t) :
  (exists sorted_blocks out : list Block.t,
     Permutation blocks sorted_blocks /\
     descending sorted_blocks /\
     walk t [] sorted_blocks out /\
     deduplicate_blocks_by_iou blocks t = Ok out) /\
  (Block.text bA = "A"%string -> Block.text bAA = "AA"%string ->
   Block.bbox bA = Block.bbox bAA ->
   0 < BBox.w (Block.bbox bA) -> 0 < BBox.h (Block.bbox bA) ->
   mean_confidence bA == mean_confidence bAA ->
   deduplicate_blocks_by_iou [bA; bAA] (1 # 2) = Ok [bAA] /\
   deduplicate_blocks_by_iou [bAA; bA] (1 # 2) = Ok [bAA]).
Proof.
  split.
  - rewrite deduplicate_returns. destruct (length blocks <=? 1)%nat eqn:E.
    + exists blocks, blocks. split; [reflexivity |].
      apply Nat.leb_le in E. destruct blocks as [| b [| b' l]]; simpl in E; try lia.
      * repeat split; constructor.
      * repeat split; try (repeat constructor).
    + exists (sorted_of blocks), (kept_after t (sorted_of blocks) []).
      split; [apply sorted_of_perm |]. split; [apply sorted_of_descending |].
      split; [apply kept_after_walk | reflexivity].
  - intros HA HAA Hbox Hw Hh Hm.
    assert (Hlen : (String.length (Block.text bA) < String.length (Block.text bAA))%nat)
      by (rewrite HA, HAA; simpl; lia).
    destruct (equal_confidence_longer_first bA bAA Hm Hlen) as [Hlt Hge].
    assert (Hdup : exceeds (1 # 2) bA bAA = true).
    { unfold exceeds. apply Qltb_true. rewrite <- Hbox, iou_of_self by assumption.
      reflexivity. }
    rewrite !deduplicate_returns. unfold sorted_of. simpl.
    rewrite Hlt, Hge. simpl. rewrite Hdup. simpl. split; reflexivity.
Qed.

(** ** The normalisers *)

(** C8: the full-analysis payload with the one paragraph
    [{box: [10,10,50,30], contents: "hi", role: None}] and no tables, figures
    or words (the fields absent, or present and empty) is normalised to a
    Page with exactly one Block: blockType "text", bbox (10, 10, 40, 20), and
    one Line with the text "hi" and no tokens. *)
Theorem hi_paragraph_page (format_value : PyVal -> string) (page_index dpi width height : Z) :
  yomitoku_result_to_page format_value hi_payload page_index dpi width height
    = Ok (hi_page page_index dpi width height) /\
  yomitoku_result_to_page format_value hi_payload_full page_index dpi width height
    = Ok (hi_page page_index dpi width height).
Proof.
  split; reflexivity.
Qed.

(** C2 (the code departs from the claim): on a value that is not a dict
    ([None], a list, a string, or a tuple that wraps one)
    [yomitoku_result_to_page] raises [AttributeError] at
    [result.get("reading_order")], where [yomitoku_ocr_to_page] returns an
    empty Page; a dict of an unknown shape does give the empty Page. *)
Theorem non_dict_result_raises (format_value : PyVal -> string) (page_index dpi width height : Z) :
  yomitoku_result_to_page format_value PNone page_index dpi width height
    = Raise AttributeError /\
  yomitoku_result_to_page format_value (PList []) page_index dpi width height
    = Raise AttributeError /\
  yomitoku_result_to_page format_value (PStr "scan") page_index dpi width height
    = Raise AttributeError /\
  yomitoku_result_to_page format_value (PTuple [PNone; PNone]) page_index dpi width height
    = Raise AttributeError /\
  yomitoku_ocr_to_page PNone page_index dpi width height
    = Ok (Page.mk page_index dpi width height [] None None None) /\
  yomitoku_result_to_page format_value (PDict [("pages", PInt 3)]%string)
      page_index dpi width height
    = Ok (Page.mk page_index dpi width height [] None None None).
Proof.
  repeat split; reflexivity.
Qed.

(** C10: a Page returned by [yomitoku_ocr_to_page] has [None] as its tables,
    figures and readingOrder, whatever the engine result holds. *)
Theorem ocr_page_has_no_layout
    (result : PyVal) (page_index dpi width height : Z) (page : Page.t) :
  yomitoku_ocr_to_page result page_index dpi width height = Ok page ->
  Page.tables page = None /\ Page.figures page = None /\ Page.readingOrder page = None.
Proof.
  unfold yomitoku_ocr_to_page.
  destruct (ocr_words (dump_model result)) as [words |]; simpl; [| discriminate].
  destruct (py_iter words) as [items |]; simpl; [| discriminate].
  destruct (mapM word_to_block items) as [blocks |]; simpl; [| discriminate].
  intros [= <-]. repeat split.
Qed.

(** ** Tile placement *)

Lemma py_int_truncates (q : Q) : truncates q (py_int q).
Proof.
  unfold truncates, py_int. destruct q as [n d]. simpl. split; intros Hq.
  - assert (Hn : (0 <= n)%Z).
    { unfold Qle in Hq. simpl in Hq. lia. }
    rewrite Z.quot_div_nonneg by lia.
    change (n / Z.pos d)%Z with (Qfloor (n # d)).
    split; [apply Qfloor_le |].
    pose proof (Qlt_floor (n # d)) as H. rewrite inject_Z_plus in H. exact H.
  - assert (Hn : (n <= 0)%Z).
    { unfold Qle in Hq. simpl in Hq. lia. }
    assert (E : (n ÷ Z.pos d)%Z = Qceiling (n # d)).
    { unfold Qceiling, Qfloor. simpl.
      rewrite <- (Z.opp_involutive n) at 1. rewrite Z.quot_opp_l by lia.
      rewrite Z.quot_div_nonneg by lia. reflexivity. }
    rewrite E. split; [| apply Qle_ceiling].
    pose proof (Qceiling_lt (n # d)) as H. unfold Z.sub in H.
    rewrite inject_Z_plus, inject_Z_opp in H. exact H.
Qed.

(** C3 (the claim fails as stated): a corner at 1.7 px is placed at pixel 1;
    rounding to the nearest integer gives 2. *)
Lemma placement_is_not_rounded :
  tile_placement tile_17 1000 1000 = (1, 1, 500, 500)%Z /\
  rounded_placement tile_17 1000 1000 = (2, 2, 500, 500)%Z /\
  tile_placement tile_17 1000 1000 <> rounded_placement tile_17 1000 1000.
Proof.
  repeat split; try reflexivity. vm_compute. discriminate.
Qed.

(** C3, as amended: the pixel placement of a tile is its normalised bbox
    scaled by the page's pixel size and cut off toward zero, [int(nx *
    pageWidthPx)] and so on: each of x_px, y_px, w_px, h_px is the integer
    part of the product. *)
Theorem tile_placement_truncates (bbox_norm : BBox.t) (page_width page_height : Z) :
  let '(x_px, y_px, w_px, h_px) := tile_placement bbox_norm page_width page_height in
  truncates (BBox.x bbox_norm * inject_Z page_width) x_px /\
  truncates (BBox.y bbox_norm * inject_Z page_height) y_px /\
  truncates (BBox.w bbox_norm * inject_Z page_width) w_px /\
  truncates (BBox.h bbox_norm * inject_Z page_height) h_px.
Proof.
  unfold tile_placement. split; [| split; [| split]]; apply py_int_truncates.
Qed.

(** ** Coordinate remap *)

Lemma inject_Z_pos (z : Z) : (0 < z)%Z -> 0 < inject_Z z.
Proof. intros H. change 0 with (inject_Z 0). rewrite <- Zlt_Qlt. exact H. Qed.

Lemma remap_bbox_returns (x_px y_px page_width page_height : Z) (b : BBox.t) :
  (0 < page_width)%Z -> (0 < page_height)%Z ->
  remap_bbox x_px y_px page_width page_height b =
    Ok (BBox.mk ((BBox.x b + inject_Z x_px) / inject_Z page_width)
                ((BBox.y b + inject_Z y_px) / inject_Z page_height)
                (BBox.w b / inject_Z page_width)
                (BBox.h b / inject_Z page_height)).
Proof.
  intros Hw Hh. unfold remap_bbox.
  rewrite !py_truediv_pos by (apply inject_Z_pos; assumption). reflexivity.
Qed.

(** The four assignments, applied once to a bbox on a page of positive
    pixel width and height: they return, the inverse transform with the same
    x_px, y_px and page size gives back the bbox, and the map is affine: it
    maps a point of the line through two boxes to the same point of the line
    through their images. *)
Lemma remap_bbox_invertible
    (x_px y_px page_width page_height : Z) (b b2 : BBox.t) (s : Q) :
  (0 < page_width)%Z -> (0 < page_height)%Z ->
  exists r r2 rmix : BBox.t,
    remap_bbox x_px y_px page_width page_height b = Ok r /\
    bbox_eq (unmap_bbox x_px y_px page_width page_height r) b /\
    remap_bbox x_px y_px page_width page_height b2 = Ok r2 /\
    remap_bbox x_px y_px page_width page_height (bbox_mix s b b2) = Ok rmix /\
    bbox_eq rmix (bbox_mix s r r2).
Proof.
  intros Hw Hh. do 3 eexists.
  rewrite !remap_bbox_returns by assumption.
  apply inject_Z_pos in Hw, Hh.
  split; [reflexivity |]. split.
  { unfold bbox_eq, unmap_bbox; simpl. repeat split; field; lra. }
  split; [reflexivity |]. split; [reflexivity |].
  unfold bbox_eq, bbox_mix; simpl. repeat split; field; lra.
Qed.

(** C5 (the code departs from the claim): the tile endpoints do not apply
    the four assignments once to each bbox.  A block built by the normalisers holds the same BBox object as its
    line (and, for an OCR word, as its token), so the loops over blocks, lines
    and tokens assign to that one object three times for an OCR word and
    twice for a paragraph.  For the tile on the right half of a 1000 x 1000
    page (placement x_px = 500, y_px = 0): the word whose tile-local bbox is
    (1, 2, 4, 2) leaves the OCR tile endpoint with the bbox
    (0.500500501, 0.000000002, 0.000000004, 0.000000002) on block, line and
    token, where one application gives (0.501, 0.002, 0.004, 0.002); the
    paragraph whose tile-local bbox is (10, 10, 40, 20) leaves the layout
    tile endpoint with (0.50051, 0.00001, 0.00004, 0.00002), where one
    application gives (0.51, 0.01, 0.04, 0.02).  In both cases the inverse
    transform with the same x_px, y_px and page size does not give the
    tile-local bbox back. *)
Theorem tile_remap_is_not_inverted :
  let remapped_word :=
    BBox.mk (500500501 # 1000000000) (2 # 1000000000) (4 # 1000000000) (2 # 1000000000) in
  let remapped_paragraph :=
    BBox.mk (500510 # 1000000) (10 # 1000000) (40 # 1000000) (20 # 1000000) in
  tile_placement (TileSpec.bboxNormalized tile_right_half) 1000 1000
    = (500, 0, 500, 1000)%Z /\
  yomitoku_ocr_to_page (PDict [("words", PList [sample_word])]%string) 0 300 500 1000
    = Ok (Page.mk 0 300 500 1000
            [word_block "ab" (BBox.mk 1 2 4 2) (Some (9 # 10))] None None None) /\
  ocr_only_tiles_endpoint word_engine 300 [page_1000] [tile_right_half]
    = Ok [Page.mk 0 300 1000 1000
            [word_block "ab" remapped_word (Some (9 # 10))] None None None] /\
  bbox_eq (remap_value 500 0 1000 1000 (BBox.mk 1 2 4 2))
          (BBox.mk (501 # 1000) (2 # 1000) (4 # 1000) (2 # 1000)) /\
  ~ bbox_eq remapped_word (remap_value 500 0 1000 1000 (BBox.mk 1 2 4 2)) /\
  ~ bbox_eq (unmap_bbox 500 0 1000 1000 remapped_word) (BBox.mk 1 2 4 2) /\
  yomitoku_result_to_page (fun _ => EmptyString) hi_payload 0 300 500 1000
    = Ok (hi_page 0 300 500 1000) /\
  layout_only_tiles_endpoint (fun _ => EmptyString) paragraph_engine 300
      [page_1000] [tile_right_half]
    = Ok [Page.mk 0 300 1000 1000
            [Block.mk "hi" remapped_paragraph "text" [Line.mk "hi" remapped_paragraph []]]
            None None None] /\
  bbox_eq (remap_value 500 0 1000 1000 hi_box)
          (BBox.mk (51 # 100) (1 # 100) (4 # 100) (2 # 100)) /\
  ~ bbox_eq remapped_paragraph (remap_value 500 0 1000 1000 hi_box) /\
  ~ bbox_eq (unmap_bbox 500 0 1000 1000 remapped_paragraph) hi_box.
Proof.
  cbv zeta.
  split; [vm_compute; reflexivity |].
  split; [vm_compute; reflexivity |].
  split; [vm_compute; reflexivity |].
  split; [unfold bbox_eq; cbn; repeat split; reflexivity |].
  split; [intros [H _]; vm_compute in H; discriminate H |].
  split; [intros [H _]; vm_compute in H; discriminate H |].
  split; [vm_compute; reflexivity |].
  split; [vm_compute; reflexivity |].
  split; [unfold bbox_eq; cbn; repeat split; reflexivity |].
  split; [intros [H _]; vm_compute in H; discriminate H |].
  intros [H _]; vm_compute in H; discriminate H.
Qed.

(** ** Tile endpoints: malformed tiles *)

(** C4 (the claim fails as stated): with an engine that finds nothing, a
    request whose only tile names page 7 of a one-page raster is answered
    with no pages and no error; a tile of zero width or negative height on
    page 0 is answered with an empty page. *)
Lemma malformed_tiles_are_not_rejected :
  in_range 1 tile_off_range = false /\
  ocr_only_tiles_endpoint quiet_engine 300 [page_1000] [tile_off_range] = Ok [] /\
  layout_only_tiles_endpoint (fun _ => EmptyString) quiet_engine 300
      [page_1000] [tile_off_range] = Ok [] /\
  tile_placement (TileSpec.bboxNormalized tile_zero_width) 1000 1000
    = (500, 0, 0, 500)%Z /\
  ocr_only_tiles_endpoint quiet_engine 300 [page_1000] [tile_zero_width]
    = Ok [empty_page 0 300 page_1000] /\
  tile_placement (TileSpec.bboxNormalized tile_negative_height) 1000 1000
    = (0, 500, 500, -250)%Z /\
  layout_only_tiles_endpoint (fun _ => EmptyString) quiet_engine 300
      [page_1000] [tile_negative_height]
    = Ok [empty_page 0 300 page_1000].
Proof.
  repeat split; vm_compute; reflexivity.
Qed.

Lemma tiles_by_page_lookup (tile_specs : list TileSpec.t) (i : Z) :
  tiles_by_page tile_specs !! i =
    non_empty (List.filter (fun s => (TileSpec.pageIndex s =? i)%Z) tile_specs).
Proof.
  unfold tiles_by_page.
  set (step := fun (m : gmap Z (list TileSpec.t)) spec =>
                 let page_idx := TileSpec.pageIndex spec in
                 <[page_idx := default [] (m !! page_idx) ++ [spec]]> m).
  set (pick := fun s => (TileSpec.pageIndex s =? i)%Z).
  enough (H : forall specs (m : gmap Z (list TileSpec.t)),
             fold_left step specs m !! i =
               match m !! i with
               | Some l => Some (l ++ List.filter pick specs)
               | None => non_empty (List.filter pick specs)
               end).
  { rewrite H, lookup_empty. reflexivity. }
  induction specs as [| s specs IH]; intros m; simpl.
  - destruct (m !! i); [rewrite app_nil_r |]; reflexivity.
  - rewrite IH. unfold step, pick. simpl.
    destruct (Z.eqb_spec (TileSpec.pageIndex s) i) as [-> | Hne].
    + rewrite lookup_insert_eq. destruct (m !! i); simpl.
      * rewrite <- app_assoc. reflexivity.
      * reflexivity.
    + rewrite lookup_insert_ne by exact Hne. reflexivity.
Qed.

Lemma filter_in_range_page (n_pages : nat) (tile_specs : list TileSpec.t) (i : Z) :
  (0 <= i < Z.of_nat n_pages)%Z ->
  List.filter (fun s => (TileSpec.pageIndex s =? i)%Z)
    (List.filter (in_range n_pages) tile_specs)
  = List.filter (fun s => (TileSpec.pageIndex s =? i)%Z) tile_specs.
Proof.
  intros Hi. induction tile_specs as [| s specs IH]; simpl; [reflexivity |].
  destruct (Z.eqb_spec (TileSpec.pageIndex s) i) as [E | Hne].
  - assert (in_range n_pages s = true) as ->.
    { unfold in_range. rewrite E. apply andb_true_iff. split; [apply Z.leb_le | apply Z.ltb_lt]; lia. }
    simpl. rewrite E, Z.eqb_refl, IH. reflexivity.
  - destruct (in_range n_pages s); simpl; [| exact IH].
    destruct (Z.eqb_spec (TileSpec.pageIndex s) i); [contradiction | exact IH].
Qed.

Lemma enumerate_from_bounds {A : Type} (l : list A) (start i : Z) (a : A) :
  In (i, a) (enumerate_from start l) -> (start <= i < start + Z.of_nat (length l))%Z.
Proof.
  revert start. induction l as [| a' l IH]; intros start; simpl; [contradiction |].
  intros [[= <- _] | Hin]; [lia |]. apply IH in Hin. lia.
Qed.

Lemma tile_pages_ext (process_page : Z -> Image.t -> list TileSpec.t -> Res Page.t)
    (by1 by2 : gmap Z (list TileSpec.t)) (pages : list (Z * Image.t)) :
  (forall i img, In (i, img) pages -> by1 !! i = by2 !! i) ->
  tile_pages process_page by1 pages = tile_pages process_page by2 pages.
Proof.
  induction pages as [| [i img] pages IH]; intros Hsame; simpl; [reflexivity |].
  rewrite (Hsame i img) by (left; reflexivity).
  rewrite IH by (intros j img' Hj; apply (Hsame j img'); right; exact Hj).
  reflexivity.
Qed.

Lemma tile_pages_in_range (process_page : Z -> Image.t -> list TileSpec.t -> Res Page.t)
    (images : list Image.t) (tile_specs : list TileSpec.t) :
  tile_pages process_page (tiles_by_page tile_specs) (enumerate_from 0 images) =
  tile_pages process_page
    (tiles_by_page (List.filter (in_range (length images)) tile_specs))
    (enumerate_from 0 images).
Proof.
  apply tile_pages_ext. intros i img Hin. apply enumerate_from_bounds in Hin.
  rewrite !tiles_by_page_lookup, filter_in_range_page by lia. reflexivity.
Qed.

Lemma tiles_by_page_single (spec : TileSpec.t) :
  tiles_by_page [spec] !! TileSpec.pageIndex spec = Some [spec].
Proof.
  rewrite tiles_by_page_lookup. simpl. rewrite Z.eqb_refl. reflexivity.
Qed.

(** C4, as amended: the tile endpoints do not reject malformed tiles.  A
    tile whose page index is outside the raster's page range is skipped
    without an error: the response is the response to the request without
    such tiles.  A tile is handed to the engine whatever the sign of its
    pixel crop: when the engine finds nothing in the crop, the page is
    returned without blocks. *)
Theorem malformed_tiles_pass
    (format_value : PyVal -> string) (engine : Crop.t -> Res PyVal) (dpi : Z)
    (images : list Image.t) (tile_specs : list TileSpec.t)
    (img : Image.t) (spec : TileSpec.t) :
  ocr_only_tiles_endpoint engine dpi images tile_specs =
    ocr_only_tiles_endpoint engine dpi images
      (List.filter (in_range (length images)) tile_specs) /\
  layout_only_tiles_endpoint format_value engine dpi images tile_specs =
    layout_only_tiles_endpoint format_value engine dpi images
      (List.filter (in_range (length images)) tile_specs) /\
  (TileSpec.pageIndex spec = 0%Z ->
   (let '(x_px, y_px, w_px, h_px) :=
      tile_placement (TileSpec.bboxNormalized spec) (Image.width img) (Image.height img) in
    engine (crop_tile img x_px y_px w_px h_px) = Ok (PDict [])) ->
   ocr_only_tiles_endpoint engine dpi [img] [spec] = Ok [empty_page 0 dpi img] /\
   layout_only_tiles_endpoint format_value engine dpi [img] [spec]
     = Ok [empty_page 0 dpi img]).
Proof.
  split; [| split].
  - unfold ocr_only_tiles_endpoint. rewrite tile_pages_in_range. reflexivity.
  - unfold layout_only_tiles_endpoint. rewrite tile_pages_in_range. reflexivity.
  - intros Hidx Hquiet.
    pose proof (tiles_by_page_single spec) as Hlook. rewrite Hidx in Hlook.
    assert (Hocr : ocr_tile engine dpi 0 img spec = Ok []).
    { unfold ocr_tile.
      destruct (tile_placement _ _ _) as [[[x_px y_px] w_px] h_px].
      unfold run_module_once. rewrite Hquiet. reflexivity. }
    assert (Hlay : layout_tile format_value engine dpi 0 img spec = Ok ([], [], [])).
    { unfold layout_tile.
      destruct (tile_placement _ _ _) as [[[x_px y_px] w_px] h_px].
      unfold run_module_once. rewrite Hquiet. reflexivity. }
    unfold ocr_only_tiles_endpoint, layout_only_tiles_endpoint.
    cbn [enumerate_from tile_pages]. rewrite Hlook.
    unfold ocr_page, layout_page. cbn [mapM]. rewrite Hocr, Hlay.
    split; reflexivity.
Qed.

(** ** The theorems at sample inputs *)

Lemma calculate_bbox_iou_spec_witness :
  0 <= BBox.w box_a /\ 0 <= BBox.h box_a /\ 0 <= BBox.w box_b /\ 0 <= BBox.h box_b /\
  exists v : Q,
    calculate_bbox_iou box_a box_b = Ok v /\
    (inter_width box_a box_b <= 0 \/ inter_height box_a box_b <= 0 -> v == 0) /\
    (0 < inter_width box_a box_b -> 0 < inter_height box_a box_b ->
       (union_area box_a box_b == 0 -> v == 0) /\
       (~ union_area box_a box_b == 0 ->
        v == intersection_area box_a box_b / union_area box_a box_b)) /\
    0 <= v <= 1.
Proof.
  assert (H2 : 0 <= 2) by (vm_compute; discriminate).
  repeat (split; [exact H2 |]).
  apply (calculate_bbox_iou_spec box_a box_b); exact H2.
Defined.

Lemma deduplicate_sorts_then_walks_witness :
  Block.text para_A = "A"%string /\ Block.text para_AA = "AA"%string /\
  Block.bbox para_A = Block.bbox para_AA /\
  0 < BBox.w (Block.bbox para_A) /\ 0 < BBox.h (Block.bbox para_A) /\
  mean_confidence para_A == mean_confidence para_AA /\
  deduplicate_blocks_by_iou [para_A; para_AA] (1 # 2) = Ok [para_AA] /\
  deduplicate_blocks_by_iou [para_AA; para_A] (1 # 2) = Ok [para_AA].
Proof.
  assert (Hpos : 0 < 1) by reflexivity.
  assert (Hm : mean_confidence para_A == mean_confidence para_AA) by reflexivity.
  repeat (split; [first [reflexivity | exact Hpos | exact Hm] |]).
  apply (deduplicate_sorts_then_walks [para_A; para_AA] (1 # 2) para_A para_AA);
    first [reflexivity | exact Hpos | exact Hm].
Defined.

Lemma deduplicate_selects_separated_witness :
  exists out : list Block.t,
    deduplicate_blocks_by_iou [word_A; word_AA] (1 # 2) = Ok out /\
    out ⊆+ [word_A; word_AA] /\
    (forall b, In b out -> In b [word_A; word_AA]) /\
    forall (i j : nat) (bi bj : Block.t),
      i <> j -> out !! i = Some bi -> out !! j = Some bj ->
      exists v : Q,
        calculate_bbox_iou (Block.bbox bi) (Block.bbox bj) = Ok v /\ v <= 1 # 2.
Proof.
  exact (deduplicate_selects_separated [word_A; word_AA] (1 # 2)).
Defined.

Lemma ocr_page_has_no_layout_witness :
  exists page : Page.t,
    yomitoku_ocr_to_page word_with_layout 0 300 100 100 = Ok page /\
    length (Page.blocks page) = 1%nat /\
    Page.tables page = None /\ Page.figures page = None /\
    Page.readingOrder page = None.
Proof.
  eexists. split; [reflexivity |]. split; [reflexivity |].
  apply (ocr_page_has_no_layout word_with_layout 0 300 100 100). reflexivity.
Defined.

Lemma malformed_tiles_pass_witness :
  TileSpec.pageIndex tile_zero_width = 0%Z /\
  quiet_engine (crop_tile page_1000 500 0 0 500) = Ok (PDict []) /\
  ocr_only_tiles_endpoint quiet_engine 300 [page_1000] [tile_off_range; tile_zero_width] =
    ocr_only_tiles_endpoint quiet_engine 300 [page_1000]
      (List.filter (in_range 1) [tile_off_range; tile_zero_width]) /\
  ocr_only_tiles_endpoint quiet_engine 300 [page_1000] [tile_zero_width]
    = Ok [empty_page 0 300 page_1000] /\
  layout_only_tiles_endpoint (fun _ => EmptyString) quiet_engine 300
      [page_1000] [tile_zero_width]
    = Ok [empty_page 0 300 page_1000].
Proof.
  split; [reflexivity |]. split; [reflexivity |].
  destruct (malformed_tiles_pass (fun _ => EmptyString) quiet_engine 300
              [page_1000] [tile_off_range; tile_zero_width] page_1000 tile_zero_width)
    as (Hocr & _ & Hquiet).
  split; [exact Hocr |]. apply Hquiet; reflexivity.
Defined.

(** * Further properties *)

(** ** Geometry *)

Lemma iou_of_nonneg (a b : BBox.t) : 0 <= iou_of a b.
Proof.
  unfold iou_of. rewrite calculate_bbox_iou_unfold.
  destruct (Qle_bool (inter_width a b) 0) eqn:Ew; simpl; [lra |].
  destruct (Qle_bool (inter_height a b) 0) eqn:Eh; simpl; [lra |].
  destruct (Qltb 0 (union_area a b)) eqn:Eu; [| lra].
  apply Qle_bool_false in Ew, Eh. apply Qltb_true in Eu.
  apply Qle_shift_div_l; [exact Eu |]. unfold intersection_area. nra.
Qed.

(** The IoU does not depend on the order of its arguments. *)
Theorem calculate_bbox_iou_symmetric (a b : BBox.t) :
  exists v1 v2 : Q,
    calculate_bbox_iou a b = Ok v1 /\ calculate_bbox_iou b a = Ok v2 /\ v1 == v2.
Proof.
  exists (iou_of a b), (iou_of b a).
  rewrite !calculate_bbox_iou_returns. repeat split. apply iou_of_comm.
Qed.

(** On any two boxes, also with negative sizes, [calculate_bbox_iou] returns
    a number, and that number is not negative: the division is reached only
    with a positive union. *)
Theorem calculate_bbox_iou_total_nonneg (a b : BBox.t) :
  exists v : Q, calculate_bbox_iou a b = Ok v /\ 0 <= v.
Proof.
  exists (iou_of a b). split; [apply calculate_bbox_iou_returns | apply iou_of_nonneg].
Qed.

(** A box of positive area has IoU 1 with itself. *)
Theorem calculate_bbox_iou_self (a : BBox.t) :
  0 < BBox.w a -> 0 < BBox.h a ->
  exists v : Q, calculate_bbox_iou a a = Ok v /\ v == 1.
Proof.
  intros Hw Hh. exists (iou_of a a).
  split; [apply calculate_bbox_iou_returns | apply iou_of_self; assumption].
Qed.

Lemma calculate_bbox_iou_zero (a b : BBox.t) :
  inter_width a b <= 0 \/ inter_height a b <= 0 -> calculate_bbox_iou a b = Ok 0.
Proof.
  intros H. rewrite calculate_bbox_iou_unfold.
  assert (E : Qle_bool (inter_width a b) 0 || Qle_bool (inter_height a b) 0 = true).
  { apply orb_true_iff. rewrite !Qle_bool_iff. exact H. }
  rewrite E. reflexivity.
Qed.

(** Boxes that lie side by side or one above the other, touching at most
    along an edge, have IoU exactly 0. *)
Theorem calculate_bbox_iou_disjoint (a b : BBox.t) :
  BBox.x a + BBox.w a <= BBox.x b \/ BBox.x b + BBox.w b <= BBox.x a \/
  BBox.y a + BBox.h a <= BBox.y b \/ BBox.y b + BBox.h b <= BBox.y a ->
  calculate_bbox_iou a b = Ok 0.
Proof.
  intros H. apply calculate_bbox_iou_zero. unfold inter_width, inter_height.
  pose proof (Q.le_min_l (BBox.x a + BBox.w a) (BBox.x b + BBox.w b)).
  pose proof (Q.le_min_r (BBox.x a + BBox.w a) (BBox.x b + BBox.w b)).
  pose proof (Q.le_max_l (BBox.x a) (BBox.x b)).
  pose proof (Q.le_max_r (BBox.x a) (BBox.x b)).
  pose proof (Q.le_min_l (BBox.y a + BBox.h a) (BBox.y b + BBox.h b)).
  pose proof (Q.le_min_r (BBox.y a + BBox.h a) (BBox.y b + BBox.h b)).
  pose proof (Q.le_max_l (BBox.y a) (BBox.y b)).
  pose proof (Q.le_max_r (BBox.y a) (BBox.y b)).
  destruct H as [H | [H | [H | H]]]; [left | left | right | right]; lra.
Qed.

(** A box without width or without height has IoU exactly 0 with every box,
    itself included. *)
Theorem calculate_bbox_iou_degenerate (a b : BBox.t) :
  BBox.w a <= 0 \/ BBox.h a <= 0 ->
  calculate_bbox_iou a b = Ok 0 /\ calculate_bbox_iou b a = Ok 0.
Proof.
  intros H.
  destruct (inter_width_le a b) as [Hw _], (inter_height_le a b) as [Hh _].
  destruct (inter_width_le b a) as [_ Hw'], (inter_height_le b a) as [_ Hh'].
  split; apply calculate_bbox_iou_zero; destruct H; [left | right | left | right]; lra.
Qed.

(** ** The resolver: what is kept and what is dropped *)

Lemma key_ge_refl (k : Q * nat) : key_ge k k.
Proof. right. split; [reflexivity | lia]. Qed.

Lemma kept_after_prefix (t : Q) (l kept : list Block.t) (b : Block.t) :
  In b kept -> In b (kept_after t l kept).
Proof.
  intros Hb. destruct (kept_after_sublist t l kept) as (sel & -> & _).
  apply in_or_app. left. exact Hb.
Qed.

Lemma descending_before (kept l : list Block.t) (c k : Block.t) :
  descending (kept ++ c :: l) -> In k kept -> key_ge (score k) (score c).
Proof.
  induction kept as [| a kept IH]; simpl; intros Hd Hk; [destruct Hk |].
  apply StronglySorted_inv in Hd as [Hd Hall].
  destruct Hk as [<- | Hk]; [| apply IH; assumption].
  rewrite Forall_forall in Hall. apply Hall, list_elem_of_In, in_or_app.
  right. left. reflexivity.
Qed.

Lemma kept_after_covers (t : Q) (l kept : list Block.t) :
  descending (kept ++ l) ->
  forall b, In b l ->
    In b (kept_after t l kept) \/
    exists k, In k (kept_after t l kept) /\
              t < iou_of (Block.bbox b) (Block.bbox k) /\
              key_ge (score k) (score b).
Proof.
  revert kept. induction l as [| c l IH]; intros kept Hd b Hb; [destruct Hb |].
  simpl. destruct (existsb (exceeds t c) kept) eqn:E.
  - destruct Hb as [<- | Hb].
    + right. apply existsb_exists in E as (k & Hk & Hex).
      exists k. split; [apply kept_after_prefix, Hk |].
      split; [apply Qltb_true, Hex |].
      eapply descending_before; eassumption.
    + apply IH; [| exact Hb].
      eapply descending_sublist; [| exact Hd].
      apply sublist_app; [reflexivity | apply sublist_cons; reflexivity].
  - destruct Hb as [<- | Hb].
    + left. apply kept_after_prefix, in_or_app. right. left. reflexivity.
    + apply IH; [| exact Hb]. rewrite <- app_assoc. exact Hd.
Qed.

(** Every block of the pool is either kept, or it overlaps a kept block by
    more than the threshold, and that kept block has a score at least as
    high: nothing is dropped without a better representative. *)
Theorem deduplicate_covers (blocks : list Block.t) (t : Q) :
  exists out : list Block.t,
    deduplicate_blocks_by_iou blocks t = Ok out /\
    forall b, In b blocks ->
      In b out \/
      exists (k : Block.t) (v : Q),
        In k out /\
        calculate_bbox_iou (Block.bbox b) (Block.bbox k) = Ok v /\ t < v /\
        key_ge (score k) (score b).
Proof.
  rewrite deduplicate_returns. eexists. split; [reflexivity |].
  intros b Hb. destruct (length blocks <=? 1)%nat; [left; exact Hb |].
  destruct (kept_after_covers t (sorted_of blocks) [] (sorted_of_descending blocks) b)
    as [Hin | (k & Hk & Hlt & Hge)].
  - apply (Permutation_in _ (sorted_of_perm blocks)), Hb.
  - left. exact Hin.
  - right. exists k, (iou_of (Block.bbox b) (Block.bbox k)).
    split; [exact Hk |]. split; [apply calculate_bbox_iou_returns |].
    split; assumption.
Qed.

(** The resolver lists what it keeps in descending order of score, whatever
    the order of the pool. *)
Theorem deduplicate_output_descending (blocks : list Block.t) (t : Q) :
  exists out : list Block.t,
    deduplicate_blocks_by_iou blocks t = Ok out /\ descending out.
Proof.
  rewrite deduplicate_returns. eexists. split; [reflexivity |].
  destruct (length blocks <=? 1)%nat eqn:E; [| apply kept_after_descending].
  apply Nat.leb_le in E. destruct blocks as [| b [| b' l]]; simpl in E; try lia.
  - constructor.
  - repeat constructor.
Qed.

Lemma sorted_of_cons (blocks : list Block.t) :
  blocks <> [] ->
  exists top rest, sorted_of blocks = top :: rest /\
                   forall b, In b blocks -> key_ge (score top) (score b).
Proof.
  intros Hne. pose proof (sorted_of_perm blocks) as Hp.
  pose proof (sorted_of_descending blocks) as Hd.
  destruct (sorted_of blocks) as [| top rest].
  - apply Permutation_nil_r in Hp. contradiction.
  - exists top, rest. split; [reflexivity |]. intros b Hb.
    apply (Permutation_in _ Hp) in Hb. apply StronglySorted_inv in Hd as [_ Hall].
    destruct Hb as [<- | Hb]; [apply key_ge_refl |].
    rewrite Forall_forall in Hall. apply Hall, list_elem_of_In, Hb.
Qed.

(** From a pool that is not empty the resolver keeps at least one block, and
    the first block it returns has a score no block of the pool exceeds. *)
Theorem deduplicate_keeps_top (blocks : list Block.t) (t : Q) :
  blocks <> [] ->
  exists (top : Block.t) (rest : list Block.t),
    deduplicate_blocks_by_iou blocks t = Ok (top :: rest) /\
    In top blocks /\
    forall b, In b blocks -> key_ge (score top) (score b).
Proof.
  intros Hne. rewrite deduplicate_returns.
  destruct (length blocks <=? 1)%nat eqn:E.
  - apply Nat.leb_le in E. destruct blocks as [| b [| b' l]]; simpl in E; try lia;
      [contradiction |].
    exists b, []. split; [reflexivity |]. split; [left; reflexivity |].
    intros c [<- | []]. apply key_ge_refl.
  - destruct (sorted_of_cons blocks Hne) as (top & rest & Hs & Htop).
    rewrite Hs. simpl.
    destruct (kept_after_sublist t rest [top]) as (sel & -> & _).
    exists top, sel. split; [reflexivity |]. split; [| exact Htop].
    apply (Permutation_in _ (Permutation_sym (sorted_of_perm blocks))).
    rewrite Hs. left. reflexivity.
Qed.

Lemma kept_after_single (t : Q) (l : list Block.t) (top : Block.t) :
  t < 0 -> kept_after t l [top] = [top].
Proof.
  intros Ht. induction l as [| b l IH]; simpl; [reflexivity |].
  assert (exceeds t b top = true) as ->; [| exact IH].
  apply Qltb_true. pose proof (iou_of_nonneg (Block.bbox b) (Block.bbox top)). lra.
Qed.

(** With a negative threshold every block counts as a duplicate of the first
    one kept: exactly one block of a non-empty pool survives. *)
Theorem deduplicate_negative_threshold (blocks : list Block.t) (t : Q) :
  t < 0 -> (2 <= length blocks)%nat ->
  exists top : Block.t,
    deduplicate_blocks_by_iou blocks t = Ok [top] /\ In top blocks.
Proof.
  intros Ht Hlen. rewrite deduplicate_returns.
  assert ((length blocks <=? 1)%nat = false) as -> by (apply Nat.leb_gt; lia).
  assert (Hne : blocks <> []) by (intros ->; simpl in Hlen; lia).
  destruct (sorted_of_cons blocks Hne) as (top & rest & Hs & _).
  rewrite Hs. simpl. rewrite kept_after_single by exact Ht.
  exists top. split; [reflexivity |].
  apply (Permutation_in _ (Permutation_sym (sorted_of_perm blocks))).
  rewrite Hs. left. reflexivity.
Qed.

Lemma apart_perm (t : Q) (l l' : list Block.t) :
  Permutation l l' ->
  ForallOrdPairs (fun a b => iou_of (Block.bbox a) (Block.bbox b) <= t) l ->
  ForallOrdPairs (fun a b => iou_of (Block.bbox a) (Block.bbox b) <= t) l'.
Proof.
  induction 1 as [| a l l' Hp IH | a b l | l l' l'' _ IH1 _ IH2]; intros H.
  - constructor.
  - inversion H as [| ? ? Hall Hrest]; subst. constructor; [| apply IH, Hrest].
    rewrite <- Hp. exact Hall.
  - inversion H as [| ? ? Hall Hrest]; subst.
    inversion Hrest as [| ? ? Hall' Hrest']; subst.
    apply Forall_cons_1 in Hall as [Hba Hall].
    constructor; [| constructor; assumption].
    constructor; [| exact Hall']. rewrite iou_of_comm. exact Hba.
  - apply IH2, IH1, H.
Qed.

Lemma apart_separated (t : Q) (l : list Block.t) :
  ForallOrdPairs (fun a b => iou_of (Block.bbox a) (Block.bbox b) <= t) l ->
  separated t l.
Proof.
  induction 1 as [| a l Hall _ IH]; [apply separated_nil |].
  intros n b Hn. destruct n as [| n]; [reflexivity |].
  simpl in Hn. simpl. rewrite (IH n b Hn), orb_false_r.
  unfold exceeds. apply Qltb_false. rewrite iou_of_comm.
  rewrite Forall_forall in Hall. apply Hall. eapply list_elem_of_lookup_2, Hn.
Qed.

(** When no two blocks of the pool overlap by more than the threshold,
    nothing is dropped: the output is the whole pool, reordered by score. *)
Theorem deduplicate_keeps_separate_blocks (blocks : list Block.t) (t : Q) :
  ForallOrdPairs (fun a b => iou_of (Block.bbox a) (Block.bbox b) <= t) blocks ->
  exists out : list Block.t,
    deduplicate_blocks_by_iou blocks t = Ok out /\
    Permutation blocks out /\ descending out.
Proof.
  intros Hapart. rewrite deduplicate_returns. eexists. split; [reflexivity |].
  destruct (length blocks <=? 1)%nat eqn:E.
  - split; [reflexivity |].
    apply Nat.leb_le in E. destruct blocks as [| b [| b' l]]; simpl in E; try lia;
      repeat constructor.
  - rewrite (kept_after_fix t (sorted_of blocks) []).
    + split; [apply sorted_of_perm | apply sorted_of_descending].
    + simpl. apply apart_separated, (apart_perm t blocks); [apply sorted_of_perm | exact Hapart].
Qed.

(** ** Inversion of monadic code *)

Lemma bind_ok {A B : Type} (c : Res A) (k : A -> Res B) (b : B) :
  bind c k = Ok b -> exists a, c = Ok a /\ k a = Ok b.
Proof.
  destruct c as [a | e]; simpl; [| discriminate]. intros H. exists a. split; [reflexivity | exact H].
Qed.

Ltac bind_inv H :=
  let a := fresh "a" in
  let Ha := fresh "Ha" in
  apply bind_ok in H as (a & Ha & H).

Lemma mapM_Forall2 {A B : Type} (f : A -> Res B) (l : list A) (r : list B) :
  mapM f l = Ok r <-> Forall2 (fun a b => f a = Ok b) l r.
Proof.
  revert r. induction l as [| a l IH]; intros r; simpl.
  - split; [intros [= <-]; constructor | intros H; inversion H; reflexivity].
  - split.
    + intros H. bind_inv H. bind_inv H. injection H as <-.
      constructor; [assumption | apply IH; assumption].
    + intros H. inversion H as [| ? b ? r' Hab Hrest]; subst.
      rewrite Hab. simpl. apply IH in Hrest. rewrite Hrest. reflexivity.
Qed.

Lemma mapM_length {A B : Type} (f : A -> Res B) (l : list A) (r : list B) :
  mapM f l = Ok r -> length r = length l.
Proof.
  intros H. apply mapM_Forall2 in H. symmetry. eapply Forall2_length, H.
Qed.

(** ** [run_module_once] *)

Lemma py_dict_shape (res : PyVal) :
  (exists e, py_dict res = Raise e) \/ (exists d, py_dict res = Ok (PDict d)).
Proof.
  unfold py_dict.
  destruct res; try (left; eexists; reflexivity);
    (destruct (mapM _ _); simpl; [right | left]; eexists; reflexivity).
Qed.

Lemma to_dict_shape (res : PyVal) :
  exists d,
    match res with
    | PModel d => Ok (PDict d)
    | PDict _ => Ok res
    | _ => match py_dict res with
           | Ok d => Ok d
           | Raise _ => Ok (PDict [])
           end
    end = Ok (PDict d).
Proof.
  destruct (py_dict_shape res) as [[e He] | [d Hd]].
  - destruct res; try (rewrite He); eexists; reflexivity.
  - destruct res; try (rewrite Hd); eexists; reflexivity.
Qed.

(** Whatever the engine returns, [run_module_once] hands on a dict; a
    failure of the engine is handed on as it is. *)
Theorem run_module_once_returns_dict
    (module_callable : Crop.t -> Res PyVal) (image_data : Crop.t) :
  (forall v, run_module_once module_callable image_data = Ok v -> exists d, v = PDict d) /\
  (forall v, module_callable image_data = Ok v ->
             exists d, run_module_once module_callable image_data = Ok (PDict d)) /\
  (forall e, module_callable image_data = Raise e ->
             run_module_once module_callable image_data = Raise e).
Proof.
  assert (Hall : forall v, module_callable image_data = Ok v ->
                   exists d, run_module_once module_callable image_data = Ok (PDict d)).
  { intros v Hv. unfold run_module_once. rewrite Hv. cbn [bind]. apply to_dict_shape. }
  split; [| split].
  - intros v Hv. destruct (module_callable image_data) as [v0 | e] eqn:E.
    + destruct (Hall v0 eq_refl) as [d Hd]. rewrite Hd in Hv. injection Hv as <-.
      exists d. reflexivity.
    + unfold run_module_once in Hv. rewrite E in Hv. discriminate.
  - exact Hall.
  - intros e He. unfold run_module_once. rewrite He. reflexivity.
Qed.

(** ** The normalisers, shape of the output *)

(** An engine result that is no dict, model or sequence ([None], a number, a
    string) is turned into an empty dict by [run_module_once], and both
    normalisers make an empty Page of it. *)
Theorem scalar_result_gives_empty_page
    (format_value : PyVal -> string) (module_callable : Crop.t -> Res PyVal)
    (image_data : Crop.t) (v : PyVal) (page_index dpi width height : Z) :
  module_callable image_data = Ok v ->
  match v with
  | PNone | PBool _ | PInt _ | PFloat _ | PStr _ => True
  | _ => False
  end ->
  (r <- run_module_once module_callable image_data ;;
   yomitoku_result_to_page format_value r page_index dpi width height)
    = Ok (Page.mk page_index dpi width height [] None None None) /\
  (r <- run_module_once module_callable image_data ;;
   yomitoku_ocr_to_page r page_index dpi width height)
    = Ok (Page.mk page_index dpi width height [] None None None).
Proof.
  intros Hv Hscalar. unfold run_module_once. rewrite Hv.
  destruct v; try contradiction; split; reflexivity.
Qed.

Lemma word_to_block_shape (word : PyVal) (b : Block.t) :
  word_to_block word = Ok b ->
  Block.blockType b = "ocr_word"%string /\
  exists tok : Token.t,
    Block.lines b = [Line.mk (Block.text b) (Block.bbox b) [tok]] /\
    Token.text tok = Block.text b /\ Token.bbox tok = Block.bbox b.
Proof.
  unfold word_to_block. intros H.
  bind_inv H. bind_inv H. destruct a0 as [[[x1 y1] x2] y2].
  repeat bind_inv H. injection H as <-. simpl.
  split; [reflexivity |]. eexists. repeat split.
Qed.

(** A Page from [yomitoku_ocr_to_page] carries the page index, dpi and size
    it was given and one block per word, in the order of the words; each block
    is tagged "ocr_word" and holds exactly one line with exactly one token,
    and block, line and token have the same text and the same bbox. *)
Theorem ocr_page_one_block_per_word
    (result : PyVal) (page_index dpi width height : Z) (page : Page.t) :
  yomitoku_ocr_to_page result page_index dpi width height = Ok page ->
  (Page.pageIndex page, Page.dpi page, Page.widthPx page, Page.heightPx page)
    = (page_index, dpi, width, height) /\
  Forall (fun b =>
            Block.blockType b = "ocr_word"%string /\
            exists tok : Token.t,
              Block.lines b = [Line.mk (Block.text b) (Block.bbox b) [tok]] /\
              Token.text tok = Block.text b /\ Token.bbox tok = Block.bbox b)
         (Page.blocks page) /\
  (forall d ws, result = PDict d -> dict_lookup d "words" = Some (PList ws) ->
                Forall2 (fun word b => word_to_block word = Ok b) ws (Page.blocks page)).
Proof.
  unfold yomitoku_ocr_to_page. intros H. repeat bind_inv H. injection H as <-. simpl.
  rename a into words, a0 into items, a1 into blocks.
  apply mapM_Forall2 in Ha1. split; [reflexivity |]. split.
  - clear Ha Ha0. induction Ha1 as [| word b items blocks Hb _ IH]; constructor;
      [eapply word_to_block_shape; eassumption | exact IH].
  - intros d ws -> Hws. change (dump_model (PDict d)) with (PDict d) in Ha.
    unfold ocr_words, dict_has, py_get in Ha. rewrite Hws in Ha.
    cbn [bind py_len] in Ha. injection Ha as <-.
    cbn [py_iter] in Ha0. injection Ha0 as <-. exact Ha1.
Qed.

Lemma py_or_text_truthy (v : PyVal) : py_truthy (py_or v (PStr "text")) = true.
Proof.
  unfold py_or. destruct (py_truthy v) eqn:E; [exact E | reflexivity].
Qed.

(** A block made from a paragraph holds exactly one line, with the text and
    the bbox of the block and no tokens.  Its blockType is the paragraph's
    role, or "text" when the role is missing or empty: the
    direction-qualified fallback tag is never used, so the result does not
    depend on how a direction would be rendered. *)
Theorem paragraph_block_shape
    (format_value : PyVal -> string) (paragraph : PyVal) (b : Block.t) :
  paragraph_to_block format_value paragraph = Ok b ->
  Block.lines b = [Line.mk (Block.text b) (Block.bbox b) []] /\
  (forall role, py_get paragraph "role" PNone = Ok role ->
                PStr (Block.blockType b) = py_or role (PStr "text")) /\
  (forall other_format : PyVal -> string,
      paragraph_to_block other_format paragraph = Ok b).
Proof.
  unfold paragraph_to_block. intros H.
  bind_inv H. bind_inv H. bind_inv H. bind_inv H. bind_inv H.
  rename a2 into role, a3 into direction.
  rewrite py_or_text_truthy in H. bind_inv H. bind_inv H. bind_inv H.
  injection H as <-. simpl.
  rewrite Ha4 in Ha5. injection Ha5 as <-.
  split; [reflexivity |]. split.
  - intros role' Hrole. rewrite Ha2 in Hrole. injection Hrole as <-.
    destruct (py_or role (PStr "text")); try discriminate.
    simpl in Ha6. injection Ha6 as <-. reflexivity.
  - intros other. rewrite Ha. cbn [bind]. rewrite Ha0. cbn [bind].
    rewrite Ha1. cbn [bind]. rewrite Ha2. cbn [bind]. rewrite Ha3. cbn [bind].
    rewrite py_or_text_truthy, Ha4. cbn [bind]. rewrite Ha6. reflexivity.
Qed.

Lemma non_empty_not_nil {A : Type} (l : list A) : non_empty l <> Some [].
Proof. destruct l; discriminate. Qed.

Lemma validate_int_list (ns : list Z) : mapM validate_int (map PInt ns) = Ok ns.
Proof.
  induction ns as [| n ns IH]; simpl; [reflexivity |]. rewrite IH. reflexivity.
Qed.

(** A Page from [yomitoku_result_to_page] carries the page index, dpi and
    size it was given; its tables and figures are [None] or a list that is not
    empty, never an empty list; and a reading order of integers in the result
    is passed through unchanged, an absent one as [None]. *)
Theorem result_page_structure
    (format_value : PyVal -> string) (result : PyVal)
    (page_index dpi width height : Z) (page : Page.t) :
  yomitoku_result_to_page format_value result page_index dpi width height = Ok page ->
  (Page.pageIndex page, Page.dpi page, Page.widthPx page, Page.heightPx page)
    = (page_index, dpi, width, height) /\
  Page.tables page <> Some [] /\ Page.figures page <> Some [] /\
  (forall d, result = PDict d ->
     (forall ns, dict_lookup d "reading_order" = Some (PList (map PInt ns)) ->
                 Page.readingOrder page = Some ns) /\
     (dict_lookup d "reading_order" = None -> Page.readingOrder page = None)).
Proof.
  unfold yomitoku_result_to_page. intros H.
  bind_inv H. bind_inv H. bind_inv H. bind_inv H. bind_inv H. bind_inv H.
  injection H as <-. simpl.
  split; [reflexivity |]. split; [apply non_empty_not_nil |].
  split; [apply non_empty_not_nil |].
  intros d ->. cbn [dump_model py_get] in Ha3. split.
  - intros ns Hro. rewrite Hro in Ha3. injection Ha3 as <-.
    cbn [validate_optional_int_list] in Ha4. rewrite validate_int_list in Ha4.
    cbn [bind] in Ha4. injection Ha4 as <-. reflexivity.
  - intros Hro. rewrite Hro in Ha3. injection Ha3 as <-.
    cbn [validate_optional_int_list] in Ha4. injection Ha4 as <-. reflexivity.
Qed.

(** On a dict result [yomitoku_result_to_page] makes one block per paragraph,
    in the order of the paragraphs, and no block when the result has no
    paragraphs: words never become blocks here. *)
Theorem result_page_one_block_per_paragraph
    (format_value : PyVal -> string) (d : list (string * PyVal))
    (page_index dpi width height : Z) (page : Page.t) :
  yomitoku_result_to_page format_value (PDict d) page_index dpi width height = Ok page ->
  (forall ps, dict_lookup d "paragraphs" = Some (PList ps) ->
              Forall2 (fun p b => paragraph_to_block format_value p = Ok b)
                      ps (Page.blocks page)) /\
  (dict_lookup d "paragraphs" = None -> Page.blocks page = []).
Proof.
  unfold yomitoku_result_to_page. intros H.
  bind_inv H. bind_inv H. bind_inv H. bind_inv H. bind_inv H. bind_inv H.
  injection H as <-. simpl. clear Ha Ha1 Ha2 Ha3 Ha4.
  cbn [dump_model result_has result_item] in Ha0. unfold dict_has in Ha0. split.
  - intros ps Hps. rewrite Hps in Ha0. cbn [bind py_len py_iter] in Ha0.
    bind_inv Ha0. apply mapM_Forall2, Ha0.
  - intros Hps. rewrite Hps in Ha0. injection Ha0 as <-. reflexivity.
Qed.

(** ** Numbers in engine results *)

Lemma inject_Z_sub (a b : Z) : inject_Z (a - b) == inject_Z a - inject_Z b.
Proof. unfold Z.sub. rewrite inject_Z_plus, inject_Z_opp. reflexivity. Qed.

Lemma py_float_number (v : PyVal) (q : Q) : py_float v = Ok q <-> py_number v = Some q.
Proof.
  unfold py_float. destruct v; simpl; split; intros H; try discriminate;
    try (injection H as <-; reflexivity).
Qed.

Lemma py_sub_numbers (a b : PyVal) (qa qb : Q) :
  py_number a = Some qa -> py_number b = Some qb ->
  exists d qd, py_sub a b = Ok d /\ py_number d = Some qd /\ qd == qa - qb.
Proof.
  unfold py_sub.
  destruct a, b; simpl; intros Ha Hb; try discriminate;
    injection Ha as <-; injection Hb as <-;
    do 2 eexists; (split; [reflexivity |]); (split; [reflexivity |]);
    first [reflexivity | apply inject_Z_sub].
Qed.

Lemma py_sub_inv (a b d : PyVal) :
  py_sub a b = Ok d ->
  exists qa qb qd, py_number a = Some qa /\ py_number b = Some qb /\
                   py_number d = Some qd /\ qd == qa - qb.
Proof.
  unfold py_sub.
  destruct a, b; simpl; intros H; try discriminate; injection H as <-;
    do 3 eexists; repeat (split; [reflexivity |]);
    first [reflexivity | apply inject_Z_sub].
Qed.

Lemma py_lt_number_l (a b : PyVal) (r : bool) (qa : Q) :
  py_lt a b = Ok r -> py_number a = Some qa ->
  exists qb, py_number b = Some qb /\ r = Qltb qa qb.
Proof.
  unfold py_lt. intros H Ha. rewrite Ha in H.
  destruct (py_number b) as [qb |] eqn:Hb.
  - injection H as <-. exists qb. split; reflexivity.
  - destruct a; try discriminate.
Qed.

Lemma py_lt_number_r (a b : PyVal) (r : bool) (qb : Q) :
  py_lt a b = Ok r -> py_number b = Some qb ->
  exists qa, py_number a = Some qa /\ r = Qltb qa qb.
Proof.
  unfold py_lt. intros H Hb. rewrite Hb in H.
  destruct (py_number a) as [qa |] eqn:Ha.
  - injection H as <-. exists qa. split; reflexivity.
  - destruct a; try discriminate; destruct b; discriminate.
Qed.

Lemma min_from_spec (xs : list PyVal) (best m : PyVal) (qm : Q) :
  min_from best xs = Ok m -> py_number m = Some qm ->
  (exists qb, py_number best = Some qb /\ qm <= qb) /\
  Forall (fun v => exists q, py_number v = Some q /\ qm <= q) xs.
Proof.
  revert best. induction xs as [| v xs IH]; simpl; intros best H Hm.
  - injection H as <-. split; [| constructor]. exists qm. split; [exact Hm | apply Qle_refl].
  - bind_inv H. destruct (IH _ H Hm) as [(qb' & Hb' & Hle) Hall]. destruct a.
    + destruct (py_lt_number_l _ _ _ _ Ha Hb') as (qbest & Hbest & Hlt).
      symmetry in Hlt. apply Qltb_true in Hlt. split.
      * exists qbest. split; [exact Hbest | lra].
      * constructor; [| exact Hall]. exists qb'. split; assumption.
    + destruct (py_lt_number_r _ _ _ _ Ha Hb') as (qv & Hv & Hlt).
      symmetry in Hlt. apply Qltb_false in Hlt. split.
      * exists qb'. split; assumption.
      * constructor; [| exact Hall]. exists qv. split; [exact Hv | lra].
Qed.

Lemma max_from_spec (xs : list PyVal) (best m : PyVal) (qm : Q) :
  max_from best xs = Ok m -> py_number m = Some qm ->
  (exists qb, py_number best = Some qb /\ qb <= qm) /\
  Forall (fun v => exists q, py_number v = Some q /\ q <= qm) xs.
Proof.
  revert best. induction xs as [| v xs IH]; simpl; intros best H Hm.
  - injection H as <-. split; [| constructor]. exists qm. split; [exact Hm | apply Qle_refl].
  - bind_inv H. destruct (IH _ H Hm) as [(qb' & Hb' & Hle) Hall]. destruct a.
    + destruct (py_lt_number_r _ _ _ _ Ha Hb') as (qbest & Hbest & Hlt).
      symmetry in Hlt. apply Qltb_true in Hlt. split.
      * exists qbest. split; [exact Hbest | lra].
      * constructor; [| exact Hall]. exists qb'. split; assumption.
    + destruct (py_lt_number_l _ _ _ _ Ha Hb') as (qv & Hv & Hlt).
      symmetry in Hlt. apply Qltb_false in Hlt. split.
      * exists qb'. split; assumption.
      * constructor; [| exact Hall]. exists qv. split; [exact Hv | lra].
Qed.

(** The smallest and the largest of a list of coordinates bound every
    coordinate of the list, and the list is not empty. *)
Lemma extent_bounds (xs : list PyVal) (lo hi : PyVal) (qlo qhi : Q) :
  py_min_list xs = Ok lo -> py_max_list xs = Ok hi ->
  py_number lo = Some qlo -> py_number hi = Some qhi ->
  qlo <= qhi /\
  Forall (fun v => exists q, py_number v = Some q /\ qlo <= q /\ q <= qhi) xs.
Proof.
  destruct xs as [| v xs]; simpl; [discriminate |]. intros Hmin Hmax Hlo Hhi.
  destruct (min_from_spec _ _ _ _ Hmin Hlo) as [(q1 & Hq1 & Hle1) Hall1].
  destruct (max_from_spec _ _ _ _ Hmax Hhi) as [(q2 & Hq2 & Hle2) Hall2].
  rewrite Hq1 in Hq2. injection Hq2 as <-.
  split; [lra |]. constructor.
  - exists q1. repeat split; assumption.
  - rewrite Forall_forall in *. intros u Hu.
    destruct (Hall1 u Hu) as (q & Hq & Hle), (Hall2 u Hu) as (q' & Hq' & Hle').
    rewrite Hq in Hq'. injection Hq' as <-. exists q. repeat split; assumption.
Qed.

Lemma Forall2_Forall_l {A B : Type} (R : A -> B -> Prop) (P : B -> Prop)
    (l : list A) (r : list B) :
  Forall2 R l r -> Forall P r -> Forall (fun a => exists b, R a b /\ P b) l.
Proof.
  induction 1 as [| a b l r Hab _ IH]; intros HP; constructor.
  - exists b. split; [exact Hab | eapply Forall_inv, HP].
  - apply IH. eapply Forall_inv_tail, HP.
Qed.

(** ** Boxes *)

(** A two-corner box of four numbers is always converted, the first corner
    becoming (x, y); the second corner is recovered as (x + w, y + h). *)
Theorem box_to_bbox_corners (b0 b1 b2 b3 : PyVal) (rest : list PyVal) (q0 q1 q2 q3 : Q) :
  py_number b0 = Some q0 -> py_number b1 = Some q1 ->
  py_number b2 = Some q2 -> py_number b3 = Some q3 ->
  exists bb : BBox.t,
    box_to_bbox (PList (b0 :: b1 :: b2 :: b3 :: rest)) = Ok bb /\
    BBox.x bb == q0 /\ BBox.y bb == q1 /\
    BBox.x bb + BBox.w bb == q2 /\ BBox.y bb + BBox.h bb == q3.
Proof.
  intros H0 H1 H2 H3.
  destruct (py_sub_numbers b2 b0 q2 q0 H2 H0) as (dw & qw & Hdw & Hqw & Ew).
  destruct (py_sub_numbers b3 b1 q3 q1 H3 H1) as (dh & qh & Hdh & Hqh & Eh).
  exists (BBox.mk q0 q1 qw qh). unfold box_to_bbox. cbn [py_index nth_error bind].
  apply py_float_number in H0, H1, Hqw, Hqh.
  rewrite H0. cbn [bind]. rewrite H1. cbn [bind]. rewrite Hdw. cbn [bind].
  rewrite Hqw. cbn [bind]. rewrite Hdh. cbn [bind]. rewrite Hqh. cbn [bind].
  simpl. repeat split; try reflexivity; lra.
Qed.

(** The bbox of a block made from a word encloses the word's polygon: its
    width and height are not negative, and every point of the polygon lies
    within it. *)
Theorem word_bbox_encloses_points (word : PyVal) (b : Block.t) :
  word_to_block word = Ok b ->
  0 <= BBox.w (Block.bbox b) /\ 0 <= BBox.h (Block.bbox b) /\
  forall points ps,
    py_get word "points" zero_points = Ok points -> py_iter points = Ok ps ->
    Forall (fun p =>
              exists vx vy qx qy,
                py_index p 0 = Ok vx /\ py_index p 1 = Ok vy /\
                py_number vx = Some qx /\ py_number vy = Some qy /\
                BBox.x (Block.bbox b) <= qx /\
                qx <= BBox.x (Block.bbox b) + BBox.w (Block.bbox b) /\
                BBox.y (Block.bbox b) <= qy /\
                qy <= BBox.y (Block.bbox b) + BBox.h (Block.bbox b)) ps.
Proof.
  unfold word_to_block. intros H.
  bind_inv H. rename a into points, Ha into Hpoints.
  bind_inv H. destruct a as [[[x1 y1] x2] y2]. rename Ha into Hext.
  bind_inv H. rename a into x, Ha into Hx.
  bind_inv H. rename a into y, Ha into Hy.
  bind_inv H. rename a into dw, Ha into Hdw.
  bind_inv H. rename a into w, Ha into Hw.
  bind_inv H. rename a into dh, Ha into Hdh.
  bind_inv H. rename a into h, Ha into Hh.
  repeat bind_inv H. injection H as <-. cbn [Block.bbox BBox.x BBox.y BBox.w BBox.h].
  unfold points_extent in Hext.
  bind_inv Hext. rename a3 into ps0, Ha3 into Hps.
  bind_inv Hext. rename a3 into xs, Ha3 into Hxs.
  bind_inv Hext. rename a3 into ys, Ha3 into Hys.
  bind_inv Hext. bind_inv Hext. bind_inv Hext. bind_inv Hext.
  injection Hext as -> -> -> ->.
  apply py_float_number in Hx, Hy, Hw, Hh.
  destruct (py_sub_inv _ _ _ Hdw) as (q2 & q1 & qd & Hq2 & Hq1 & Hqd & Ed).
  destruct (py_sub_inv _ _ _ Hdh) as (r2 & r1 & rd & Hr2 & Hr1 & Hrd & Erd).
  rewrite Hx in Hq1. injection Hq1 as <-. rewrite Hw in Hqd. injection Hqd as <-.
  rewrite Hy in Hr1. injection Hr1 as <-. rewrite Hh in Hrd. injection Hrd as <-.
  destruct (extent_bounds xs _ _ _ _ Ha3 Ha4 Hx Hq2) as [Hxle Hxall].
  destruct (extent_bounds ys _ _ _ _ Ha5 Ha6 Hy Hr2) as [Hyle Hyall].
  split; [lra |]. split; [lra |].
  intros points' ps Hp' Hps'. rewrite Hpoints in Hp'. injection Hp' as <-.
  rewrite Hps in Hps'. injection Hps' as <-.
  apply mapM_Forall2 in Hxs, Hys.
  pose proof (Forall2_Forall_l _ _ _ _ Hxs Hxall) as Fx.
  pose proof (Forall2_Forall_l _ _ _ _ Hys Hyall) as Fy.
  rewrite Forall_forall in *. intros p Hp.
  destruct (Fx p Hp) as (vx & Hvx & qx & Hqx & Hx1 & Hx2).
  destruct (Fy p Hp) as (vy & Hvy & qy & Hqy & Hy1 & Hy2).
  exists vx, vy, qx, qy. repeat split; try assumption; lra.
Qed.

(** ** Tiles: grouping and placement *)

(** The grouping loop files every tile under its page index and keeps the
    order of the request: a page index is mapped to the tiles that name it,
    in request order, and a page index no tile names has no entry. *)
Theorem tiles_by_page_groups (tile_specs : list TileSpec.t) (i : Z) :
  let named := List.filter (fun s => (TileSpec.pageIndex s =? i)%Z) tile_specs in
  (named = [] -> tiles_by_page tile_specs !! i = None) /\
  (named <> [] -> tiles_by_page tile_specs !! i = Some named) /\
  (forall spec, In spec tile_specs -> TileSpec.pageIndex spec = i ->
     exists group, tiles_by_page tile_specs !! i = Some group /\ In spec group).
Proof.
  cbv zeta. rewrite tiles_by_page_lookup.
  set (named := List.filter _ tile_specs). split; [| split].
  - intros ->. reflexivity.
  - intros Hne. destruct named; [contradiction | reflexivity].
  - intros spec Hin Hidx.
    assert (Hnamed : In spec named).
    { apply filter_In. split; [exact Hin | apply Z.eqb_eq, Hidx]. }
    destruct named as [| s l]; [destruct Hnamed |].
    eexists. split; [reflexivity | exact Hnamed].
Qed.

Lemma truncates_nonneg (q : Q) (z : Z) :
  0 <= q -> truncates q z -> (0 <= z)%Z /\ inject_Z z <= q.
Proof.
  intros Hq [Hpos _]. destruct (Hpos Hq) as [Hle Hlt]. split; [| exact Hle].
  assert (H : inject_Z (-1) < inject_Z z).
  { change (inject_Z (-1)) with (- (1))%Q. lra. }
  rewrite <- Zlt_Qlt in H. lia.
Qed.

(** A tile that lies within the unit square is placed within the raster:
    its pixel origin and size are not negative, and the crop ends at or
    before the page's width and height. *)
Theorem tile_placement_within_page (bbox_norm : BBox.t) (page_width page_height : Z) :
  0 <= BBox.x bbox_norm -> 0 <= BBox.y bbox_norm ->
  0 <= BBox.w bbox_norm -> 0 <= BBox.h bbox_norm ->
  BBox.x bbox_norm + BBox.w bbox_norm <= 1 ->
  BBox.y bbox_norm + BBox.h bbox_norm <= 1 ->
  (0 <= page_width)%Z -> (0 <= page_height)%Z ->
  let '(x_px, y_px, w_px, h_px) := tile_placement bbox_norm page_width page_height in
  (0 <= x_px /\ 0 <= w_px /\ x_px + w_px <= page_width)%Z /\
  (0 <= y_px /\ 0 <= h_px /\ y_px + h_px <= page_height)%Z.
Proof.
  intros Hx Hy Hw Hh Hxw Hyh HW HH. unfold tile_placement.
  assert (HWq : 0 <= inject_Z page_width) by (change 0 with (inject_Z 0); rewrite <- Zle_Qle; exact HW).
  assert (HHq : 0 <= inject_Z page_height) by (change 0 with (inject_Z 0); rewrite <- Zle_Qle; exact HH).
  assert (bound : forall n s d, 0 <= n -> 0 <= s -> n + s <= 1 -> 0 <= inject_Z d ->
            (0 <= py_int (n * inject_Z d) /\ 0 <= py_int (s * inject_Z d) /\
             py_int (n * inject_Z d) + py_int (s * inject_Z d) <= d)%Z).
  { intros n s d Hn Hs Hns Hd.
    destruct (truncates_nonneg (n * inject_Z d) _ ltac:(nra) (py_int_truncates _)) as [Hn0 Hnle].
    destruct (truncates_nonneg (s * inject_Z d) _ ltac:(nra) (py_int_truncates _)) as [Hs0 Hsle].
    split; [exact Hn0 |]. split; [exact Hs0 |].
    rewrite Zle_Qle, inject_Z_plus. nra. }
  split; apply bound; assumption.
Qed.

(** ** Remap and sort key *)

Lemma read_block_keeps (s : store) (block : Block.t) :
  length (Block.lines (read_block s (fst (block_objects block))))
    = length (Block.lines block) /\
  map Token.confidence (block_tokens (read_block s (fst (block_objects block))))
    = map Token.confidence (block_tokens block).
Proof.
  unfold block_tokens. cbn [block_objects fst read_block Block.lines BlockObj.lines].
  split; [rewrite !length_map; reflexivity |].
  induction (Block.lines block) as [| line lines IH]; simpl; [reflexivity |].
  rewrite !map_app, IH. f_equal. rewrite !map_map. reflexivity.
Qed.

Lemma sum_confidence_by_confidences (b b' : Block.t) :
  map Token.confidence (block_tokens b') = map Token.confidence (block_tokens b) ->
  sum_confidence b' = sum_confidence b /\ token_count b' = token_count b.
Proof.
  intros H. split.
  - unfold sum_confidence.
    assert (E : forall ts acc,
               fold_left (fun a t => a + confidence_or_zero t) ts acc
               = fold_left (fun a o => a + match o with Some c => c | None => 0 end)
                   (map Token.confidence ts) acc).
    { induction ts as [| t ts IH]; intros acc; simpl; [reflexivity | apply IH]. }
    rewrite !E, H. reflexivity.
  - rewrite !token_count_length.
    rewrite <- (length_map Token.confidence (block_tokens b')), H. apply length_map.
Qed.

(** The remap of a block changes coordinates only: text, blockType and the
    number of lines stay, and so does the sort key of the resolver, so the
    order in which the resolver visits blocks does not depend on the tile a
    block came from. *)
Theorem remap_block_keeps_sort_key
    (x_px y_px page_width page_height : Z) (block block' : Block.t) :
  remap_block x_px y_px page_width page_height block = Ok block' ->
  Block.text block' = Block.text block /\
  Block.blockType block' = Block.blockType block /\
  length (Block.lines block') = length (Block.lines block) /\
  sort_key block' = sort_key block.
Proof.
  unfold remap_block. cbn [block_objects]. intros H. bind_inv H. injection H as <-.
  destruct (read_block_keeps a block) as [Hlen Hconf].
  cbn [block_objects fst] in Hlen, Hconf.
  split; [reflexivity |]. split; [reflexivity |]. split; [exact Hlen |].
  rewrite !sort_key_returns. unfold score_of.
  destruct (sum_confidence_by_confidences block _ Hconf) as [-> ->].
  reflexivity.
Qed.

(** ** Tile endpoints: failures and pages *)

Lemma mapM_raises {A B : Type} (f : A -> Res B) (l : list A) (a : A) :
  In a l -> (exists e, f a = Raise e) -> exists e, mapM f l = Raise e.
Proof.
  induction l as [| c l IH]; intros Hin Hraise; [destruct Hin |]. simpl.
  destruct (f c) as [b |e] eqn:E; [| exists e; reflexivity]. simpl.
  destruct Hin as [-> | Hin].
  - destruct Hraise as [e He]. rewrite He in E. discriminate.
  - destruct (IH Hin Hraise) as [e He]. rewrite He. exists e. reflexivity.
Qed.

Lemma tile_pages_raises (process_page : Z -> Image.t -> list TileSpec.t -> Res Page.t)
    (by_page : gmap Z (list TileSpec.t)) (pages : list (Z * Image.t))
    (i : Z) (img : Image.t) (specs : list TileSpec.t) :
  In (i, img) pages -> by_page !! i = Some specs ->
  (exists e, process_page i img specs = Raise e) ->
  exists e, tile_pages process_page by_page pages = Raise e.
Proof.
  intros Hin Hlook Hraise. induction pages as [| [j img'] pages IH]; [destruct Hin |].
  simpl. destruct Hin as [[= -> ->] | Hin].
  - rewrite Hlook. destruct Hraise as [e ->]. exists e. reflexivity.
  - destruct (IH Hin) as [e He]. destruct (by_page !! j) as [sp |]; [| exists e; exact He].
    destruct (process_page j img' sp) as [page | e']; [| exists e'; reflexivity].
    simpl. rewrite He. exists e. reflexivity.
Qed.

Lemma enumerate_from_In {A : Type} (l : list A) (start : Z) (n : nat) (a : A) :
  nth_error l n = Some a -> In (start + Z.of_nat n, a)%Z (enumerate_from start l).
Proof.
  revert start n. induction l as [| c l IH]; intros start n H; [destruct n; discriminate |].
  destruct n as [| n]; simpl in H; cbn [enumerate_from].
  - injection H as <-. left. f_equal. lia.
  - right. rewrite Nat2Z.inj_succ.
    replace (start + Z.succ (Z.of_nat n))%Z with (start + 1 + Z.of_nat n)%Z by lia.
    apply IH, H.
Qed.

Lemma tiles_by_page_member (tile_specs : list TileSpec.t) (spec : TileSpec.t) :
  In spec tile_specs ->
  exists group,
    tiles_by_page tile_specs !! TileSpec.pageIndex spec = Some group /\ In spec group.
Proof.
  intros Hin. rewrite tiles_by_page_lookup.
  set (named := List.filter _ tile_specs).
  assert (Hnamed : In spec named).
  { apply filter_In. split; [exact Hin | apply Z.eqb_refl]. }
  destruct named as [| s l]; [destruct Hnamed |].
  eexists. split; [reflexivity | exact Hnamed].
Qed.

(** When the engine fails on one tile of a page of the raster, the whole
    request fails with HTTP status 500: no page is returned, whatever the
    other tiles yield. *)
Theorem tile_engine_failure_fails_request
    (format_value : PyVal -> string) (engine : Crop.t -> Res PyVal) (dpi : Z)
    (images : list Image.t) (tile_specs : list TileSpec.t)
    (spec : TileSpec.t) (n : nat) (img : Image.t) (e : exn) :
  In spec tile_specs ->
  TileSpec.pageIndex spec = Z.of_nat n ->
  nth_error images n = Some img ->
  (let '(x_px, y_px, w_px, h_px) :=
     tile_placement (TileSpec.bboxNormalized spec) (Image.width img) (Image.height img) in
   engine (crop_tile img x_px y_px w_px h_px) = Raise e) ->
  ocr_only_tiles_endpoint engine dpi images tile_specs = Raise (HTTPException 500) /\
  layout_only_tiles_endpoint format_value engine dpi images tile_specs
    = Raise (HTTPException 500).
Proof.
  intros Hin Hidx Himg Hfail.
  destruct (tiles_by_page_member tile_specs spec Hin) as (group & Hlook & Hspec).
  rewrite Hidx in Hlook.
  pose proof (enumerate_from_In images 0 n img Himg) as Hpage. simpl in Hpage.
  assert (Hocr : exists e', ocr_tile engine dpi (Z.of_nat n) img spec = Raise e').
  { exists e. unfold ocr_tile.
    destruct (tile_placement _ _ _) as [[[x_px y_px] w_px] h_px].
    unfold run_module_once. rewrite Hfail. reflexivity. }
  assert (Hlay : exists e', layout_tile format_value engine dpi (Z.of_nat n) img spec = Raise e').
  { exists e. unfold layout_tile.
    destruct (tile_placement _ _ _) as [[[x_px y_px] w_px] h_px].
    unfold run_module_once. rewrite Hfail. reflexivity. }
  split.
  - assert (Hp : exists e', ocr_page engine dpi (Z.of_nat n) img group = Raise e').
    { unfold ocr_page. destruct (mapM_raises _ _ _ Hspec Hocr) as [e' ->].
      exists e'. reflexivity. }
    unfold ocr_only_tiles_endpoint.
    destruct (tile_pages_raises _ _ _ _ _ _ Hpage Hlook Hp) as [e' ->]. reflexivity.
  - assert (Hp : exists e',
               layout_page format_value engine dpi (Z.of_nat n) img group = Raise e').
    { unfold layout_page. destruct (mapM_raises _ _ _ Hspec Hlay) as [e' ->].
      exists e'. reflexivity. }
    unfold layout_only_tiles_endpoint.
    destruct (tile_pages_raises _ _ _ _ _ _ Hpage Hlook Hp) as [e' ->]. reflexivity.
Qed.

Lemma tile_pages_Forall2 (process_page : Z -> Image.t -> list TileSpec.t -> Res Page.t)
    (P : Z * Image.t -> Page.t -> Prop)
    (by_page : gmap Z (list TileSpec.t)) (pairs : list (Z * Image.t)) (pages : list Page.t) :
  (forall i img specs page, process_page i img specs = Ok page -> P (i, img) page) ->
  tile_pages process_page by_page pairs = Ok pages ->
  Forall2 P
    (List.filter (fun p => match by_page !! fst p with Some _ => true | None => false end) pairs)
    pages.
Proof.
  intros HP. revert pages. induction pairs as [| [i img] pairs IH]; intros pages H; simpl in *.
  - injection H as <-. constructor.
  - destruct (by_page !! i) as [specs |]; [| apply IH, H].
    bind_inv H. bind_inv H. injection H as <-.
    constructor; [eapply HP; eassumption | apply IH; assumption].
Qed.

Lemma has_tiles (tile_specs : list TileSpec.t) (i : Z) :
  match tiles_by_page tile_specs !! i with Some _ => true | None => false end
  = existsb (fun s => (TileSpec.pageIndex s =? i)%Z) tile_specs.
Proof.
  rewrite tiles_by_page_lookup.
  induction tile_specs as [| s l IH]; simpl; [reflexivity |].
  destruct (TileSpec.pageIndex s =? i)%Z; [reflexivity | exact IH].
Qed.

(** A tile endpoint that succeeds returns one page for each page of the
    raster that some tile names, in raster order, and none for the others.
    Each page carries its index in the raster and the pixel size of the whole
    page, not of a tile.  The OCR tile endpoint never returns tables, figures
    or a reading order; the layout tile endpoint never returns a reading
    order, and its tables and figures are never an empty list. *)
Theorem tile_endpoints_pages
    (format_value : PyVal -> string) (engine : Crop.t -> Res PyVal) (dpi : Z)
    (images : list Image.t) (tile_specs : list TileSpec.t) (pages : list Page.t) :
  let named :=
    List.filter
      (fun p => existsb (fun s => (TileSpec.pageIndex s =? fst p)%Z) tile_specs)
      (enumerate_from 0 images) in
  (ocr_only_tiles_endpoint engine dpi images tile_specs = Ok pages ->
   Forall2 (fun p page =>
              (Page.pageIndex page, Page.dpi page, Page.widthPx page, Page.heightPx page)
                = (fst p, dpi, Image.width (snd p), Image.height (snd p)) /\
              Page.tables page = None /\ Page.figures page = None /\
              Page.readingOrder page = None) named pages) /\
  (layout_only_tiles_endpoint format_value engine dpi images tile_specs = Ok pages ->
   Forall2 (fun p page =>
              (Page.pageIndex page, Page.dpi page, Page.widthPx page, Page.heightPx page)
                = (fst p, dpi, Image.width (snd p), Image.height (snd p)) /\
              Page.tables page <> Some [] /\ Page.figures page <> Some [] /\
              Page.readingOrder page = None) named pages).
Proof.
  cbv zeta.
  rewrite (List.filter_ext _
             (fun p => match tiles_by_page tile_specs !! fst p with
                       | Some _ => true | None => false end))
    by (intros p; symmetry; apply has_tiles).
  split; intros H.
  - unfold ocr_only_tiles_endpoint, or_http_500 in H.
    destruct (tile_pages _ _ _) as [pages' |] eqn:E; [| discriminate].
    injection H as <-. eapply tile_pages_Forall2; [| exact E].
    intros i img specs page Hp. unfold ocr_page in Hp.
    bind_inv Hp. bind_inv Hp. injection Hp as <-. repeat split.
  - unfold layout_only_tiles_endpoint, or_http_500 in H.
    destruct (tile_pages _ _ _) as [pages' |] eqn:E; [| discriminate].
    injection H as <-. eapply tile_pages_Forall2; [| exact E].
    intros i img specs page Hp. unfold layout_page in Hp.
    bind_inv Hp. bind_inv Hp. injection Hp as <-. simpl.
    repeat split; apply non_empty_not_nil.
Qed.

(** ** Whole-page endpoints *)

Lemma or_http_500_ok {A : Type} (c : Res A) (a : A) : or_http_500 c = Ok a -> c = Ok a.
Proof. destruct c; simpl; [intros [= <-]; reflexivity | discriminate]. Qed.

Lemma mapM_impl {A B : Type} (f : A -> Res B) (P : A -> B -> Prop)
    (l : list A) (r : list B) :
  (forall a b, f a = Ok b -> P a b) -> mapM f l = Ok r -> Forall2 P l r.
Proof.
  intros HP H. apply mapM_Forall2 in H.
  induction H; constructor; [apply HP; assumption | assumption].
Qed.

Lemma result_page_header
    (format_value : PyVal -> string) (result : PyVal)
    (page_index dpi width height : Z) (page : Page.t) :
  yomitoku_result_to_page format_value result page_index dpi width height = Ok page ->
  (Page.pageIndex page, Page.dpi page, Page.widthPx page, Page.heightPx page)
    = (page_index, dpi, width, height).
Proof.
  unfold yomitoku_result_to_page. intros H. repeat bind_inv H. injection H as <-. reflexivity.
Qed.

Lemma ocr_page_header (result : PyVal) (page_index dpi width height : Z) (page : Page.t) :
  yomitoku_ocr_to_page result page_index dpi width height = Ok page ->
  (Page.pageIndex page, Page.dpi page, Page.widthPx page, Page.heightPx page)
    = (page_index, dpi, width, height).
Proof.
  unfold yomitoku_ocr_to_page. intros H. repeat bind_inv H. injection H as <-. reflexivity.
Qed.

(** A whole-page endpoint that succeeds returns exactly one page for every
    page of the raster, in raster order; each carries its index, the
    requested dpi and the pixel size of its image. *)
Theorem whole_page_endpoints_pages
    (format_value : PyVal -> string) (engine : Crop.t -> Res PyVal) (dpi : Z)
    (images : list Image.t) (pages : list Page.t) :
  ocr_endpoint format_value dpi engine images = Ok pages \/
  ocr_only_endpoint dpi engine images = Ok pages \/
  layout_only_endpoint format_value dpi engine images = Ok pages ->
  length pages = length images /\
  Forall2 (fun p page =>
             (Page.pageIndex page, Page.dpi page, Page.widthPx page, Page.heightPx page)
               = (fst p, dpi, Image.width (snd p), Image.height (snd p)))
          (enumerate_from 0 images) pages.
Proof.
  intros H.
  assert (Hlen : forall (A : Type) (l : list A) start, length (enumerate_from start l) = length l).
  { induction l as [| a l IH]; intros start; simpl; [reflexivity | rewrite IH; reflexivity]. }
  enough (HF : Forall2 (fun p page =>
             (Page.pageIndex page, Page.dpi page, Page.widthPx page, Page.heightPx page)
               = (fst p, dpi, Image.width (snd p), Image.height (snd p)))
          (enumerate_from 0 images) pages).
  { split; [| exact HF]. apply Forall2_length in HF. rewrite Hlen in HF. symmetry. exact HF. }
  destruct H as [H | [H | H]]; apply or_http_500_ok in H;
    (eapply mapM_impl; [| exact H]); intros [i img] page Hp; cbn [fst snd].
  - apply or_http_500_ok in Hp. bind_inv Hp. eapply result_page_header, Hp.
  - bind_inv Hp. eapply ocr_page_header, Hp.
  - bind_inv Hp. eapply result_page_header, Hp.
Qed.

(** ** The tile that covers the page *)

Lemma py_int_scale_zero (d : Z) : py_int (0 * inject_Z d) = 0%Z.
Proof. reflexivity. Qed.

Lemma py_int_scale_one (d : Z) : py_int (1 * inject_Z d) = d.
Proof.
  unfold py_int. simpl. rewrite Z.quot_1_r. destruct d; reflexivity.
Qed.

Lemma full_tile_placement (page_index page_width page_height : Z) :
  tile_placement (TileSpec.bboxNormalized (full_tile page_index)) page_width page_height
  = (0, 0, page_width, page_height)%Z.
Proof.
  unfold tile_placement, full_tile. cbn [TileSpec.bboxNormalized BBox.x BBox.y BBox.w BBox.h].
  rewrite !py_int_scale_zero, !py_int_scale_one. reflexivity.
Qed.

(** ** The remap on shared bbox objects *)

Lemma remap_at_returns (x_px y_px page_width page_height : Z) (s : store) (addr : nat) :
  (0 < page_width)%Z -> (0 < page_height)%Z ->
  remap_at x_px y_px page_width page_height s addr
  = Ok (store_set s addr (remap_value x_px y_px page_width page_height (s addr))).
Proof.
  intros Hw Hh. unfold remap_at. rewrite remap_bbox_returns by assumption. reflexivity.
Qed.

Lemma remap_tokens_value (x_px y_px page_width page_height : Z)
    (tokens : list Token.t) (s : store) :
  (0 < page_width)%Z -> (0 < page_height)%Z ->
  exists s',
    foldM (remap_token x_px y_px page_width page_height) (map token_objects tokens) s = Ok s' /\
    s' 0%nat = Nat.iter (length tokens) (remap_value x_px y_px page_width page_height) (s 0%nat).
Proof.
  intros Hw Hh. revert s. induction tokens as [| token tokens IH]; intros s.
  - exists s. split; reflexivity.
  - cbn [map foldM]. unfold remap_token at 1. cbn [token_objects TokenObj.bbox].
    rewrite remap_at_returns by assumption. cbn [bind].
    destruct (IH (store_set s 0 (remap_value x_px y_px page_width page_height (s 0%nat))))
      as (s' & -> & Hs').
    exists s'. split; [reflexivity |]. rewrite Hs'. cbn [length].
    rewrite Nat.iter_succ_r. reflexivity.
Qed.

Lemma remap_lines_value (x_px y_px page_width page_height : Z)
    (lines : list Line.t) (s : store) :
  (0 < page_width)%Z -> (0 < page_height)%Z ->
  exists s',
    foldM (remap_line x_px y_px page_width page_height) (map line_objects lines) s = Ok s' /\
    s' 0%nat = Nat.iter (length lines + length (flat_map Line.tokens lines))
                 (remap_value x_px y_px page_width page_height) (s 0%nat).
Proof.
  intros Hw Hh. revert s. induction lines as [| line lines IH]; intros s.
  - exists s. split; reflexivity.
  - cbn [map foldM]. unfold remap_line at 1. cbn [line_objects LineObj.bbox LineObj.tokens].
    rewrite remap_at_returns by assumption. cbn [bind].
    destruct (remap_tokens_value x_px y_px page_width page_height (Line.tokens line)
                (store_set s 0 (remap_value x_px y_px page_width page_height (s 0%nat)))
                Hw Hh) as (s1 & -> & Hs1).
    cbn [bind]. destruct (IH s1) as (s' & -> & Hs').
    exists s'. split; [reflexivity |]. rewrite Hs', Hs1.
    cbn [flat_map length]. rewrite length_app.
    change (store_set s 0 (remap_value x_px y_px page_width page_height (s 0%nat)) 0%nat)
      with (remap_value x_px y_px page_width page_height (s 0%nat)).
    rewrite <- Nat.iter_succ_r, <- !Nat.iter_add. f_equal. lia.
Qed.

Lemma read_block_shared (s : store) (block : Block.t) :
  read_block s (fst (block_objects block)) = with_bbox block (s 0%nat).
Proof.
  unfold read_block, with_bbox. cbn [block_objects fst BlockObj.text BlockObj.bbox
    BlockObj.blockType BlockObj.lines].
  f_equal. rewrite map_map. apply map_ext. intros line.
  unfold read_line. cbn [line_objects LineObj.text LineObj.bbox LineObj.tokens].
  f_equal. rewrite map_map. reflexivity.
Qed.

(** The bbox object of a block is put through the four assignments once
    for the block, once more for each of its lines and once more for each
    of their tokens. *)
Lemma remap_block_value (x_px y_px page_width page_height : Z) (block : Block.t) :
  (0 < page_width)%Z -> (0 < page_height)%Z ->
  remap_block x_px y_px page_width page_height block
  = Ok (with_bbox block
          (Nat.iter (1 + length (Block.lines block) + length (block_tokens block))
             (remap_value x_px y_px page_width page_height) (Block.bbox block))).
Proof.
  intros Hw Hh. unfold remap_block. cbn [block_objects].
  unfold remap_block_objects. cbn [BlockObj.bbox BlockObj.lines].
  rewrite remap_at_returns by assumption. cbn [bind].
  destruct (remap_lines_value x_px y_px page_width page_height (Block.lines block)
              (store_set (fun _ => Block.bbox block) 0
                 (remap_value x_px y_px page_width page_height (Block.bbox block)))
              Hw Hh) as (s' & -> & Hs').
  cbn [bind]. f_equal.
  pose proof (read_block_shared s' block) as Hread. cbn [block_objects fst] in Hread.
  rewrite Hread, Hs'. f_equal.
  change (store_set (fun _ => Block.bbox block) 0
            (remap_value x_px y_px page_width page_height (Block.bbox block)) 0%nat)
    with (remap_value x_px y_px page_width page_height (Block.bbox block)).
  unfold block_tokens. rewrite <- Nat.iter_succ_r. reflexivity.
Qed.

Lemma word_block_counts (word : PyVal) (b : Block.t) :
  word_to_block word = Ok b ->
  length (Block.lines b) = 1%nat /\ length (block_tokens b) = 1%nat.
Proof.
  intros H. apply word_to_block_shape in H as (_ & tok & Hlines & _).
  unfold block_tokens. rewrite Hlines. split; reflexivity.
Qed.

Lemma paragraph_block_counts (format_value : PyVal -> string) (paragraph : PyVal) (b : Block.t) :
  paragraph_to_block format_value paragraph = Ok b ->
  length (Block.lines b) = 1%nat /\ length (block_tokens b) = 0%nat.
Proof.
  unfold paragraph_to_block. intros H. repeat bind_inv H. injection H as <-.
  split; reflexivity.
Qed.

(** On a page of positive size the tile loops leave the bbox of a block they
    remap, and with it the bbox of its line and of its token, put through the
    four assignments three times when the block comes from
    [yomitoku_ocr_to_page] (block, line and token hold one object) and twice
    when it comes from a paragraph of [yomitoku_result_to_page] (block and
    line hold one object). *)
Theorem remap_repeats_on_shared_bbox
    (format_value : PyVal -> string) (x_px y_px page_width page_height : Z)
    (item : PyVal) (b : Block.t) :
  (0 < page_width)%Z -> (0 < page_height)%Z ->
  (word_to_block item = Ok b ->
   remap_block x_px y_px page_width page_height b
   = Ok (with_bbox b
           (remap_value x_px y_px page_width page_height
              (remap_value x_px y_px page_width page_height
                 (remap_value x_px y_px page_width page_height (Block.bbox b)))))) /\
  (paragraph_to_block format_value item = Ok b ->
   remap_block x_px y_px page_width page_height b
   = Ok (with_bbox b
           (remap_value x_px y_px page_width page_height
              (remap_value x_px y_px page_width page_height (Block.bbox b))))).
Proof.
  intros Hw Hh. split; intros H; rewrite remap_block_value by assumption.
  - destruct (word_block_counts _ _ H) as [-> ->]. reflexivity.
  - destruct (paragraph_block_counts _ _ _ H) as [-> ->]. reflexivity.
Qed.

Lemma mapM_map_ok {A B : Type} (f : A -> Res B) (g : A -> B) (l : list A) :
  Forall (fun a => f a = Ok (g a)) l -> mapM f l = Ok (map g l).
Proof.
  induction 1 as [| a l Ha _ IH]; simpl; [reflexivity |]. rewrite Ha, IH. reflexivity.
Qed.

Lemma ocr_page_blocks_counts (result : PyVal) (page_index dpi width height : Z) (page : Page.t) :
  yomitoku_ocr_to_page result page_index dpi width height = Ok page ->
  Forall (fun b => length (Block.lines b) = 1%nat /\ length (block_tokens b) = 1%nat)
         (Page.blocks page).
Proof.
  unfold yomitoku_ocr_to_page. intros H. repeat bind_inv H. injection H as <-. simpl.
  apply mapM_Forall2 in Ha1. clear Ha Ha0.
  induction Ha1 as [| word b items blocks Hb _ IH]; constructor;
    [eapply word_block_counts; eassumption | exact IH].
Qed.

(** For a one-page raster of positive size, the OCR tile endpoint called
    with the single tile (0, 0, 1, 1) returns the page of the whole-page OCR
    endpoint with the bbox of every block, and of its line and token, put
    through the remap three times (each coordinate divided by the page size
    three times over), and the blocks then deduplicated at threshold 0.5. *)
Theorem full_tile_matches_whole_page
    (engine : Crop.t -> Res PyVal) (dpi : Z) (img : Image.t) (page : Page.t) :
  (0 < Image.width img)%Z -> (0 < Image.height img)%Z ->
  ocr_only_endpoint dpi engine [img] = Ok [page] ->
  exists kept : list Block.t,
    deduplicate_blocks_by_iou
      (map (fun b =>
              with_bbox b
                (remap_value 0 0 (Image.width img) (Image.height img)
                   (remap_value 0 0 (Image.width img) (Image.height img)
                      (remap_value 0 0 (Image.width img) (Image.height img)
                         (Block.bbox b)))))
           (Page.blocks page))
      (1 # 2) = Ok kept /\
    ocr_only_tiles_endpoint engine dpi [img] [full_tile 0]
    = Ok [Page.mk 0 dpi (Image.width img) (Image.height img) kept None None None].
Proof.
  intros Hw Hh H. apply or_http_500_ok in H. cbn [enumerate_from mapM] in H.
  bind_inv H. cbn [mapM bind] in H. injection H as <-.
  bind_inv Ha. rename a0 into result.
  rewrite deduplicate_returns. eexists. split; [reflexivity |].
  unfold ocr_only_tiles_endpoint. cbn [enumerate_from tile_pages].
  pose proof (tiles_by_page_single (full_tile 0)) as Hlook.
  cbn [full_tile TileSpec.pageIndex] in Hlook. fold (full_tile 0) in Hlook.
  rewrite Hlook. unfold ocr_page. cbn [mapM]. unfold ocr_tile.
  rewrite full_tile_placement.
  change (crop_tile img 0 0 (Image.width img) (Image.height img)) with (whole_array img).
  rewrite Ha0. cbn [bind]. rewrite Ha. cbn [bind].
  rewrite (mapM_map_ok _
             (fun b =>
                with_bbox b
                  (remap_value 0 0 (Image.width img) (Image.height img)
                     (remap_value 0 0 (Image.width img) (Image.height img)
                        (remap_value 0 0 (Image.width img) (Image.height img)
                           (Block.bbox b)))))).
  - cbn [bind concat]. rewrite app_nil_r, deduplicate_returns. reflexivity.
  - eapply Forall_impl; [eapply ocr_page_blocks_counts, Ha |].
    intros b [Hl Ht]. rewrite remap_block_value by assumption. rewrite Hl, Ht. reflexivity.
Qed.

(** ** Malformed words *)

Lemma word_not_dict_raises (w : PyVal) :
  match w with PDict _ => False | _ => True end ->
  word_entry w = Raise AttributeError /\ word_to_block w = Raise AttributeError.
Proof.
  destruct w; intros H; try contradiction; split; reflexivity.
Qed.

(** A word that is not a dict makes both normalisers fail for the whole
    page, wherever it stands in the list of words; [yomitoku_result_to_page]
    fails on it although it makes no block from a word. *)
Theorem malformed_word_fails_page
    (format_value : PyVal -> string) (d : list (string * PyVal))
    (ws : list PyVal) (w : PyVal) (page_index dpi width height : Z) :
  dict_lookup d "words" = Some (PList ws) ->
  In w ws ->
  match w with PDict _ => False | _ => True end ->
  (exists e, yomitoku_result_to_page format_value (PDict d) page_index dpi width height
             = Raise e) /\
  (exists e, yomitoku_ocr_to_page (PDict d) page_index dpi width height = Raise e).
Proof.
  intros Hws Hin Hw. destruct (word_not_dict_raises w Hw) as [Hentry Hblock]. split.
  - unfold yomitoku_result_to_page. cbn [dump_model result_has result_item].
    unfold dict_has. rewrite Hws. cbn [bind py_len py_iter].
    destruct (mapM_raises word_entry ws w Hin (ex_intro _ _ Hentry)) as [e ->].
    exists e. reflexivity.
  - unfold yomitoku_ocr_to_page. cbn [dump_model ocr_words].
    unfold dict_has, py_get. rewrite Hws. cbn [bind py_len py_iter].
    destruct (mapM_raises word_to_block ws w Hin (ex_intro _ _ Hblock)) as [e ->].
    exists e. reflexivity.
Qed.

(** ** The further properties at sample inputs *)

Lemma calculate_bbox_iou_self_witness :
  0 < BBox.w box_a /\ 0 < BBox.h box_a /\
  exists v : Q, calculate_bbox_iou box_a box_a = Ok v /\ v == 1.
Proof.
  assert (H : 0 < 2) by reflexivity.
  split; [exact H |]. split; [exact H |].
  apply (calculate_bbox_iou_self box_a); exact H.
Defined.

Lemma calculate_bbox_iou_disjoint_witness :
  BBox.x box_a + BBox.w box_a <= BBox.x box_right /\
  calculate_bbox_iou box_a box_right = Ok 0.
Proof.
  assert (H : BBox.x box_a + BBox.w box_a <= BBox.x box_right) by (vm_compute; discriminate).
  split; [exact H |]. apply (calculate_bbox_iou_disjoint box_a box_right). left. exact H.
Defined.

Lemma calculate_bbox_iou_degenerate_witness :
  BBox.h box_flat <= 0 /\
  calculate_bbox_iou box_flat box_a = Ok 0 /\ calculate_bbox_iou box_a box_flat = Ok 0.
Proof.
  assert (H : BBox.h box_flat <= 0) by (vm_compute; discriminate).
  split; [exact H |]. apply (calculate_bbox_iou_degenerate box_flat box_a). right. exact H.
Defined.

Lemma deduplicate_covers_witness :
  exists out : list Block.t,
    deduplicate_blocks_by_iou [word_A; word_AA] (1 # 2) = Ok out /\
    forall b, In b [word_A; word_AA] ->
      In b out \/
      exists (k : Block.t) (v : Q),
        In k out /\
        calculate_bbox_iou (Block.bbox b) (Block.bbox k) = Ok v /\ 1 # 2 < v /\
        key_ge (score k) (score b).
Proof.
  exact (deduplicate_covers [word_A; word_AA] (1 # 2)).
Defined.

Lemma deduplicate_keeps_top_witness :
  [word_AA; word_A] <> [] /\
  exists (top : Block.t) (rest : list Block.t),
    deduplicate_blocks_by_iou [word_AA; word_A] (1 # 2) = Ok (top :: rest) /\
    In top [word_AA; word_A] /\
    forall b, In b [word_AA; word_A] -> key_ge (score top) (score b).
Proof.
  assert (H : [word_AA; word_A] <> []) by discriminate.
  split; [exact H |]. apply (deduplicate_keeps_top [word_AA; word_A] (1 # 2) H).
Defined.

Lemma deduplicate_negative_threshold_witness :
  - (1) < 0 /\ (2 <= length [word_A; word_far])%nat /\
  exists top : Block.t,
    deduplicate_blocks_by_iou [word_A; word_far] (- (1)) = Ok [top] /\
    In top [word_A; word_far].
Proof.
  assert (Ht : - (1) < 0) by reflexivity.
  assert (Hlen : (2 <= length [word_A; word_far])%nat) by (simpl; lia).
  split; [exact Ht |]. split; [exact Hlen |].
  apply (deduplicate_negative_threshold [word_A; word_far] (- (1)) Ht Hlen).
Defined.

Lemma deduplicate_keeps_separate_blocks_witness :
  ForallOrdPairs (fun a b => iou_of (Block.bbox a) (Block.bbox b) <= 1 # 2)
    [word_far; word_A] /\
  exists out : list Block.t,
    deduplicate_blocks_by_iou [word_far; word_A] (1 # 2) = Ok out /\
    Permutation [word_far; word_A] out /\ descending out.
Proof.
  assert (H : ForallOrdPairs (fun a b => iou_of (Block.bbox a) (Block.bbox b) <= 1 # 2)
                [word_far; word_A]).
  { repeat constructor. vm_compute. discriminate. }
  split; [exact H |]. apply (deduplicate_keeps_separate_blocks [word_far; word_A] (1 # 2) H).
Defined.

Lemma run_module_once_returns_dict_witness :
  (forall v, run_module_once none_engine (whole_array page_1000) = Ok v ->
             exists d, v = PDict d) /\
  (forall v, none_engine (whole_array page_1000) = Ok v ->
             exists d, run_module_once none_engine (whole_array page_1000) = Ok (PDict d)) /\
  (forall e, none_engine (whole_array page_1000) = Raise e ->
             run_module_once none_engine (whole_array page_1000) = Raise e).
Proof.
  exact (run_module_once_returns_dict none_engine (whole_array page_1000)).
Defined.

Lemma scalar_result_gives_empty_page_witness :
  none_engine (whole_array page_1000) = Ok PNone /\
  (r <- run_module_once none_engine (whole_array page_1000) ;;
   yomitoku_result_to_page (fun _ => EmptyString) r 0 300 1000 1000)
    = Ok (Page.mk 0 300 1000 1000 [] None None None) /\
  (r <- run_module_once none_engine (whole_array page_1000) ;;
   yomitoku_ocr_to_page r 0 300 1000 1000)
    = Ok (Page.mk 0 300 1000 1000 [] None None None).
Proof.
  split; [reflexivity |].
  apply (scalar_result_gives_empty_page (fun _ => EmptyString) none_engine
           (whole_array page_1000) PNone 0 300 1000 1000 eq_refl I).
Defined.

Lemma ocr_page_one_block_per_word_witness :
  exists page : Page.t,
    yomitoku_ocr_to_page word_with_layout 0 300 100 100 = Ok page /\
    (Page.pageIndex page, Page.dpi page, Page.widthPx page, Page.heightPx page)
      = (0, 300, 100, 100)%Z /\
    Forall (fun b =>
              Block.blockType b = "ocr_word"%string /\
              exists tok : Token.t,
                Block.lines b = [Line.mk (Block.text b) (Block.bbox b) [tok]] /\
                Token.text tok = Block.text b /\ Token.bbox tok = Block.bbox b)
           (Page.blocks page) /\
    (forall d ws, word_with_layout = PDict d -> dict_lookup d "words" = Some (PList ws) ->
                  Forall2 (fun word b => word_to_block word = Ok b) ws (Page.blocks page)).
Proof.
  eexists. split; [reflexivity |].
  apply (ocr_page_one_block_per_word word_with_layout 0 300 100 100). reflexivity.
Defined.

Lemma paragraph_block_shape_witness :
  exists b : Block.t,
    paragraph_to_block (fun _ => EmptyString) hi_paragraph = Ok b /\
    Block.lines b = [Line.mk (Block.text b) (Block.bbox b) []] /\
    (forall role, py_get hi_paragraph "role" PNone = Ok role ->
                  PStr (Block.blockType b) = py_or role (PStr "text")) /\
    (forall other_format : PyVal -> string,
        paragraph_to_block other_format hi_paragraph = Ok b).
Proof.
  eexists. split; [reflexivity |].
  apply (paragraph_block_shape (fun _ => EmptyString) hi_paragraph). reflexivity.
Defined.

Lemma result_page_structure_witness :
  exists page : Page.t,
    yomitoku_result_to_page (fun _ => EmptyString) (PDict ordered_payload) 0 300 100 100
      = Ok page /\
    (Page.pageIndex page, Page.dpi page, Page.widthPx page, Page.heightPx page)
      = (0, 300, 100, 100)%Z /\
    Page.tables page <> Some [] /\ Page.figures page <> Some [] /\
    (forall d, PDict ordered_payload = PDict d ->
       (forall ns, dict_lookup d "reading_order" = Some (PList (map PInt ns)) ->
                   Page.readingOrder page = Some ns) /\
       (dict_lookup d "reading_order" = None -> Page.readingOrder page = None)).
Proof.
  eexists. split; [reflexivity |].
  apply (result_page_structure (fun _ => EmptyString) (PDict ordered_payload) 0 300 100 100).
  reflexivity.
Defined.

Lemma result_page_one_block_per_paragraph_witness :
  exists page : Page.t,
    yomitoku_result_to_page (fun _ => EmptyString) (PDict ordered_payload) 0 300 100 100
      = Ok page /\
    (forall ps, dict_lookup ordered_payload "paragraphs" = Some (PList ps) ->
                Forall2 (fun p b => paragraph_to_block (fun _ => EmptyString) p = Ok b)
                        ps (Page.blocks page)) /\
    (dict_lookup ordered_payload "paragraphs" = None -> Page.blocks page = []).
Proof.
  eexists. split; [reflexivity |].
  apply (result_page_one_block_per_paragraph (fun _ => EmptyString) ordered_payload
           0 300 100 100).
  reflexivity.
Defined.

Lemma box_to_bbox_corners_witness :
  py_number (PInt 10) = Some (inject_Z 10) /\ py_number (PFloat (101 # 10)) = Some (101 # 10) /\
  py_number (PInt 50) = Some (inject_Z 50) /\ py_number (PInt 30) = Some (inject_Z 30) /\
  exists bb : BBox.t,
    box_to_bbox (PList [PInt 10; PFloat (101 # 10); PInt 50; PInt 30]) = Ok bb /\
    BBox.x bb == inject_Z 10 /\ BBox.y bb == 101 # 10 /\
    BBox.x bb + BBox.w bb == inject_Z 50 /\ BBox.y bb + BBox.h bb == inject_Z 30.
Proof.
  repeat (split; [reflexivity |]).
  apply (box_to_bbox_corners (PInt 10) (PFloat (101 # 10)) (PInt 50) (PInt 30) []);
    reflexivity.
Defined.

Lemma word_bbox_encloses_points_witness :
  word_to_block sample_word = Ok sample_word_block /\
  0 <= BBox.w (Block.bbox sample_word_block) /\
  0 <= BBox.h (Block.bbox sample_word_block) /\
  forall points ps,
    py_get sample_word "points" zero_points = Ok points -> py_iter points = Ok ps ->
    Forall (fun p =>
              exists vx vy qx qy,
                py_index p 0 = Ok vx /\ py_index p 1 = Ok vy /\
                py_number vx = Some qx /\ py_number vy = Some qy /\
                BBox.x (Block.bbox sample_word_block) <= qx /\
                qx <= BBox.x (Block.bbox sample_word_block)
                      + BBox.w (Block.bbox sample_word_block) /\
                BBox.y (Block.bbox sample_word_block) <= qy /\
                qy <= BBox.y (Block.bbox sample_word_block)
                      + BBox.h (Block.bbox sample_word_block)) ps.
Proof.
  assert (H : word_to_block sample_word = Ok sample_word_block) by reflexivity.
  split; [exact H |]. apply (word_bbox_encloses_points sample_word sample_word_block H).
Defined.

Lemma tiles_by_page_groups_witness :
  let named :=
    List.filter (fun s => (TileSpec.pageIndex s =? 0)%Z)
      [tile_zero_width; tile_off_range; full_tile 0] in
  named = [tile_zero_width; full_tile 0] /\
  (named = [] -> tiles_by_page [tile_zero_width; tile_off_range; full_tile 0] !! 0%Z = None) /\
  (named <> [] ->
   tiles_by_page [tile_zero_width; tile_off_range; full_tile 0] !! 0%Z = Some named) /\
  (forall spec, In spec [tile_zero_width; tile_off_range; full_tile 0] ->
     TileSpec.pageIndex spec = 0%Z ->
     exists group,
       tiles_by_page [tile_zero_width; tile_off_range; full_tile 0] !! 0%Z = Some group /\
       In spec group).
Proof.
  split; [reflexivity |].
  exact (tiles_by_page_groups [tile_zero_width; tile_off_range; full_tile 0] 0).
Defined.

Lemma tile_placement_within_page_witness :
  tile_placement tile_inner 1000 801 = (250, 200, 500, 400)%Z /\
  (0 <= 250 /\ 0 <= 500 /\ 250 + 500 <= 1000)%Z /\
  (0 <= 200 /\ 0 <= 400 /\ 200 + 400 <= 801)%Z.
Proof.
  split; [reflexivity |].
  assert (Hq : 0 <= 1 # 4) by (vm_compute; discriminate).
  assert (Hh : 0 <= 1 # 2) by (vm_compute; discriminate).
  assert (Hs : (1 # 4) + (1 # 2) <= 1) by (vm_compute; discriminate).
  exact (tile_placement_within_page tile_inner 1000 801 Hq Hq Hh Hh Hs Hs
           ltac:(lia) ltac:(lia)).
Defined.

Lemma remap_block_keeps_sort_key_witness :
  exists block' : Block.t,
    remap_block 500 0 1000 1000 sample_word_block = Ok block' /\
    Block.text block' = Block.text sample_word_block /\
    Block.blockType block' = Block.blockType sample_word_block /\
    length (Block.lines block') = length (Block.lines sample_word_block) /\
    sort_key block' = sort_key sample_word_block.
Proof.
  eexists. split; [reflexivity |].
  apply (remap_block_keeps_sort_key 500 0 1000 1000 sample_word_block). reflexivity.
Defined.

Lemma tile_engine_failure_fails_request_witness :
  In (full_tile 0) [tile_off_range; full_tile 0] /\
  nth_error [page_1000] 0 = Some page_1000 /\
  failing_engine (crop_tile page_1000 0 0 1000 1000) = Raise ValueError /\
  ocr_only_tiles_endpoint failing_engine 300 [page_1000] [tile_off_range; full_tile 0]
    = Raise (HTTPException 500) /\
  layout_only_tiles_endpoint (fun _ => EmptyString) failing_engine 300
      [page_1000] [tile_off_range; full_tile 0]
    = Raise (HTTPException 500).
Proof.
  assert (Hin : In (full_tile 0) [tile_off_range; full_tile 0]) by (right; left; reflexivity).
  split; [exact Hin |]. split; [reflexivity |]. split; [reflexivity |].
  apply (tile_engine_failure_fails_request (fun _ => EmptyString) failing_engine 300
           [page_1000] [tile_off_range; full_tile 0] (full_tile 0) 0 page_1000 ValueError
           Hin eq_refl eq_refl eq_refl).
Defined.

Lemma tile_endpoints_pages_witness :
  ocr_only_tiles_endpoint quiet_engine 300 [page_1000; page_1000] [full_tile 1]
    = Ok [empty_page 1 300 page_1000] /\
  Forall2 (fun p page =>
             (Page.pageIndex page, Page.dpi page, Page.widthPx page, Page.heightPx page)
               = (fst p, 300%Z, Image.width (snd p), Image.height (snd p)) /\
             Page.tables page = None /\ Page.figures page = None /\
             Page.readingOrder page = None)
    (List.filter
       (fun p => existsb (fun s => (TileSpec.pageIndex s =? fst p)%Z) [full_tile 1])
       (enumerate_from 0 [page_1000; page_1000]))
    [empty_page 1 300 page_1000].
Proof.
  assert (H : ocr_only_tiles_endpoint quiet_engine 300 [page_1000; page_1000] [full_tile 1]
              = Ok [empty_page 1 300 page_1000]) by (vm_compute; reflexivity).
  split; [exact H |].
  apply (tile_endpoints_pages (fun _ => EmptyString) quiet_engine 300
           [page_1000; page_1000] [full_tile 1] [empty_page 1 300 page_1000]).
  exact H.
Defined.

Lemma whole_page_endpoints_pages_witness :
  ocr_only_endpoint 300 quiet_engine [page_1000; page_1000]
    = Ok [empty_page 0 300 page_1000; empty_page 1 300 page_1000] /\
  length [empty_page 0 300 page_1000; empty_page 1 300 page_1000]
    = length [page_1000; page_1000] /\
  Forall2 (fun p page =>
             (Page.pageIndex page, Page.dpi page, Page.widthPx page, Page.heightPx page)
               = (fst p, 300%Z, Image.width (snd p), Image.height (snd p)))
          (enumerate_from 0 [page_1000; page_1000])
          [empty_page 0 300 page_1000; empty_page 1 300 page_1000].
Proof.
  assert (H : ocr_only_endpoint 300 quiet_engine [page_1000; page_1000]
              = Ok [empty_page 0 300 page_1000; empty_page 1 300 page_1000])
    by (vm_compute; reflexivity).
  split; [exact H |].
  apply (whole_page_endpoints_pages (fun _ => EmptyString) quiet_engine 300
           [page_1000; page_1000]).
  right. left. exact H.
Defined.

Lemma full_tile_matches_whole_page_witness :
  (0 < Image.width page_1000)%Z /\ (0 < Image.height page_1000)%Z /\
  ocr_only_endpoint 300 word_engine [page_1000]
    = Ok [Page.mk 0 300 1000 1000 [sample_word_block] None None None] /\
  exists kept : list Block.t,
    deduplicate_blocks_by_iou
      (map (fun b =>
              with_bbox b
                (remap_value 0 0 (Image.width page_1000) (Image.height page_1000)
                   (remap_value 0 0 (Image.width page_1000) (Image.height page_1000)
                      (remap_value 0 0 (Image.width page_1000) (Image.height page_1000)
                         (Block.bbox b)))))
           (Page.blocks (Page.mk 0 300 1000 1000 [sample_word_block] None None None)))
      (1 # 2) = Ok kept /\
    ocr_only_tiles_endpoint word_engine 300 [page_1000] [full_tile 0]
    = Ok [Page.mk 0 300 (Image.width page_1000) (Image.height page_1000)
            kept None None None].
Proof.
  assert (Hpos : (0 < 1000)%Z) by lia.
  assert (H : ocr_only_endpoint 300 word_engine [page_1000]
              = Ok [Page.mk 0 300 1000 1000 [sample_word_block] None None None])
    by reflexivity.
  split; [exact Hpos |]. split; [exact Hpos |]. split; [exact H |].
  exact (full_tile_matches_whole_page word_engine 300 page_1000 _ Hpos Hpos H).
Defined.

Lemma remap_repeats_on_shared_bbox_witness :
  (0 < 1000)%Z /\
  word_to_block sample_word = Ok sample_word_block /\
  remap_block 500 0 1000 1000 sample_word_block
  = Ok (with_bbox sample_word_block
          (remap_value 500 0 1000 1000
             (remap_value 500 0 1000 1000
                (remap_value 500 0 1000 1000 (Block.bbox sample_word_block))))).
Proof.
  assert (Hpos : (0 < 1000)%Z) by lia.
  assert (H : word_to_block sample_word = Ok sample_word_block) by reflexivity.
  split; [exact Hpos |]. split; [exact H |].
  exact (proj1 (remap_repeats_on_shared_bbox (fun _ => EmptyString) 500 0 1000 1000
                  sample_word sample_word_block Hpos Hpos) H).
Defined.

Lemma malformed_word_fails_page_witness :
  dict_lookup bad_words "words" = Some (PList [sample_word; PNone]) /\
  In PNone [sample_word; PNone] /\
  (exists e, yomitoku_result_to_page (fun _ => EmptyString) (PDict bad_words) 0 300 100 100
             = Raise e) /\
  (exists e, yomitoku_ocr_to_page (PDict bad_words) 0 300 100 100 = Raise e).
Proof.
  assert (Hin : In PNone [sample_word; PNone]) by (right; left; reflexivity).
  split; [reflexivity |]. split; [exact Hin |].
  apply (malformed_word_fails_page (fun _ => EmptyString) bad_words
           [sample_word; PNone] PNone 0 300 100 100 eq_refl Hin I).
Defined.
